(** * Finite scalar quantizer (fsq/fsq.ipynb): model and verification

    The notebook's [FSQ] class is embedded method by method.

    - Integer arrays are lists of [Z]; int64 arithmetic wraps ([wrap_int64])
      and the cast to uint32 reduces modulo 2^32 ([astype_uint32]).  The
      level counts and the indices a caller passes are int64 values
      ([is_int64]), the element type numpy gives a list of Python integers.
    - Floating-point arrays are lists over an element type [F] with the
      operations of [Dtype].  Three element types are given:
      [IEEE.float64] and [IEEE.float32] are the binary formats the code runs
      in (numpy computes [indexes_to_codes], and [codes_to_indexes] of a
      numpy array, in float64; JAX computes [quantize], and
      [codes_to_indexes] of a JAX array, in float32), with the correctly
      rounded operations of the Standard Library's [SpecFloat];
      [Float.float] is an exact real number or one of the special values
      +inf, -inf, NaN, with exact finite arithmetic: the arithmetic the
      formulas are written for, and the one in which [tan] and [tanh] are
      available.
    - The integer methods and the two codec methods are written once, for
      any element type.  [bound] and [quantize], which need [tan], [tanh]
      and rounding to an integer, are given over [Float.float].
    - Python exceptions are values of [exn], threaded by the [result] monad.
    - Arrays are modelled along their last axis: [quantize] and
      [codes_to_indexes] take one vector, [indexes_to_codes] one index, and
      [indexes_to_codes_array] a rank-1 array of indices (one row per index).
      numpy broadcasting of two last axes is [broadcast2]. *)

From Stdlib Require Import ZArith List Lia Bool Reals Lra SpecFloat.
Import ListNotations.

(** ** Exceptions *)

(** The two exceptions the class can raise: the [assert] of
    [codes_to_indexes], and the shape error of an operator whose operands
    do not broadcast. *)
Inductive exn : Type :=
| AssertionError
| BroadcastError.

Inductive result (A : Type) : Type :=
| Ok (a : A)
| Raise (e : exn).

Arguments Ok {A} a.
Arguments Raise {A} e.

Definition bind {A B : Type} (m : result A) (k : A -> result B) : result B :=
  match m with
  | Ok a => k a
  | Raise e => Raise e
  end.

Notation "x <- m ;; k" := (bind m (fun x => k))
  (at level 61, m at next level, right associativity).

Fixpoint mapM {A B : Type} (f : A -> result B) (l : list A) : result (list B) :=
  match l with
  | [] => Ok []
  | a :: l' => b <- f a ;; bs <- mapM f l' ;; Ok (b :: bs)
  end.

(** ** Floating-point element types *)

(** What the codec methods ask of a floating-point element type: the
    conversion of an integer array element, [+], [*], [/], and the cast
    [.astype(uint32)], which is [None] where the conversion is undefined. *)
Class Dtype (F : Type) : Type := {
  from_int : Z -> F;
  add : F -> F -> F;
  multiply : F -> F -> F;
  true_divide : F -> F -> F;
  to_uint32 : F -> option Z
}.

(** ** numpy arrays *)

Module NumPy.

Local Open Scope Z_scope.

(** The values of an int64 array element. *)
Definition is_int64 (z : Z) : Prop :=
  -9223372036854775808 <= z < 9223372036854775808.

(** Two's-complement wrap-around of a signed 64-bit result:
    2^63 = 9223372036854775808, 2^64 = 18446744073709551616. *)
Definition wrap_int64 (z : Z) : Z :=
  (z + 9223372036854775808) mod 18446744073709551616 - 9223372036854775808.

(** [.astype(np.uint32)] of an integer: 2^32 = 4294967296. *)
Definition astype_uint32 (z : Z) : Z := z mod 4294967296.

(** [np.floor_divide] on integers: rounds towards minus infinity, and a
    division by zero yields 0 (with a warning, not an exception). *)
Definition floor_divide (a b : Z) : Z := if b =? 0 then 0 else a / b.

(** [np.mod] on integers: the result has the sign of the divisor, and a zero
    divisor yields 0. *)
Definition mod_ (a b : Z) : Z := if b =? 0 then 0 else a mod b.

(** [np.cumprod] of an int64 array, the running product starting from [acc]. *)
Fixpoint cumprod_from (acc : Z) (l : list Z) : list Z :=
  match l with
  | [] => []
  | x :: l' => let acc' := wrap_int64 (acc * x) in acc' :: cumprod_from acc' l'
  end.

Definition cumprod (l : list Z) : list Z := cumprod_from 1 l.

(** [np.prod] of an int64 array. *)
Definition prod (l : list Z) : Z :=
  fold_left (fun acc x => wrap_int64 (acc * x)) l 1.

(** [np.arange(n)]: [0, 1, ..., n-1], empty when [n <= 0].  A list has no
    size limit: the real call fails for lack of memory when [n] is too
    large, and the theorems that construct an object of unbounded size say
    so. *)
Definition arange (n : Z) : list Z := map Z.of_nat (seq 0 (Z.to_nat n)).

(** [.sum(axis=-1)] of a floating-point array, accumulated from the left.
    numpy adds 8 or more elements pairwise, which can round differently;
    the floating-point theorems below have at most 3 dimensions, and in
    exact arithmetic the order does not matter. *)
Definition sum_ {F : Type} {D : Dtype F} (l : list F) : F :=
  fold_left add l (from_int 0).

(** Broadcasting of a binary operator along the last axis: equal lengths
    are combined elementwise, a length-1 operand is stretched, anything else
    is a shape error. *)
Definition broadcast2 {A B C : Type} (f : A -> B -> C)
    (xs : list A) (ys : list B) : result (list C) :=
  if Nat.eqb (length xs) (length ys)
  then Ok (map (fun p => f (fst p) (snd p)) (combine xs ys))
  else match xs, ys with
       | [x], _ => Ok (map (f x) ys)
       | _, [y] => Ok (map (fun x => f x y) xs)
       | _, _ => Raise BroadcastError
       end.

End NumPy.

(** ** IEEE 754 binary floating point *)

Module IEEE.

Local Open Scope Z_scope.

(** A binary format: the precision in bits and the exponent bound.  The
    operations of [SpecFloat] round to nearest, ties to even. *)
Record format : Type := mkformat { prec : Z; emax : Z }.

Definition binary32 : format := mkformat 24 128.
Definition binary64 : format := mkformat 53 1024.

(** Conversion of an integer to the nearest value of the format. *)
Definition of_int (fmt : format) (z : Z) : spec_float :=
  binary_normalize (prec fmt) (emax fmt) z 0 false.

(** Conversion of a value of another format, [.astype]; exact when the
    format is the wider one. *)
Definition astype (fmt : format) (x : spec_float) : spec_float :=
  match x with
  | S754_finite s m e =>
      binary_normalize (prec fmt) (emax fmt) (cond_Zopp s (Zpos m)) e s
  | _ => x
  end.

(** Truncation towards zero of a finite value [(-1)^s * m * 2^e]. *)
Definition trunc (x : spec_float) : option Z :=
  match x with
  | S754_zero _ => Some 0
  | S754_finite s m e =>
      let a := match e with
               | Zneg p => Z.shiftr (Zpos m) (Zpos p)
               | _ => Z.shiftl (Zpos m) e
               end in
      Some (if s then - a else a)
  | S754_infinity _ | S754_nan => None
  end.

(** [.astype(jnp.uint32)] of a float: the truncated value when it is
    representable; the conversion of NaN, of an infinity or of a value
    outside [0, 2^32) is not defined: [None]. *)
Definition astype_uint32 (x : spec_float) : option Z :=
  match trunc x with
  | Some t => if (0 <=? t) && (t <? 4294967296) then Some t else None
  | None => None
  end.

Definition dtype (fmt : format) : Dtype spec_float := {|
  from_int := of_int fmt;
  add := SFadd (prec fmt) (emax fmt);
  multiply := SFmul (prec fmt) (emax fmt);
  true_divide := SFdiv (prec fmt) (emax fmt);
  to_uint32 := astype_uint32
|}.

(** [np.float32] and [np.float64]. *)
Definition float32 : Dtype spec_float := dtype binary32.
Definition float64 : Dtype spec_float := dtype binary64.

End IEEE.

(** ** Exact arithmetic with the IEEE special values *)

Module Float.

Local Open Scope R_scope.

Inductive float : Type :=
| Fin (r : R)
| PInf
| NInf
| NaN.

(** The infinity with the sign of [r]; NaN when [r] is zero.  This is both
    [r * inf] and [r / 0]. *)
Definition signed_inf (r : R) : float :=
  if Rlt_dec 0 r then PInf else if Rlt_dec r 0 then NInf else NaN.

Definition of_int (z : Z) : float := Fin (IZR z).

Definition fopp (x : float) : float :=
  match x with
  | Fin r => Fin (- r)
  | PInf => NInf
  | NInf => PInf
  | NaN => NaN
  end.

Definition fadd (x y : float) : float :=
  match x, y with
  | NaN, _ | _, NaN => NaN
  | Fin a, Fin b => Fin (a + b)
  | PInf, NInf | NInf, PInf => NaN
  | PInf, _ | _, PInf => PInf
  | NInf, _ | _, NInf => NInf
  end.

Definition fsub (x y : float) : float :=
  match x, y with
  | Fin a, Fin b => Fin (a - b)
  | _, _ => fadd x (fopp y)
  end.

Definition fmul (x y : float) : float :=
  match x, y with
  | NaN, _ | _, NaN => NaN
  | Fin a, Fin b => Fin (a * b)
  | Fin a, PInf | PInf, Fin a => signed_inf a
  | Fin a, NInf | NInf, Fin a => signed_inf (- a)
  | PInf, PInf | NInf, NInf => PInf
  | PInf, NInf | NInf, PInf => NInf
  end.

(** Division.  A zero divisor is taken as +0: in [quantize] and
    [_scale_and_shift_inverse] the divisor is an integer array, and in
    [bound] the quotient only feeds [tan], which maps both infinities to
    NaN. *)
Definition fdiv (x y : float) : float :=
  match x, y with
  | NaN, _ | _, NaN => NaN
  | Fin a, Fin b => if Req_dec_T b 0 then signed_inf a else Fin (a / b)
  | Fin _, PInf | Fin _, NInf => Fin 0
  | PInf, Fin b => if Rlt_dec b 0 then NInf else PInf
  | NInf, Fin b => if Rlt_dec b 0 then PInf else NInf
  | _, _ => NaN
  end.

Definition ftan (x : float) : float :=
  match x with
  | Fin r => Fin (tan r)
  | _ => NaN
  end.

(** The exact hyperbolic tangent lies strictly between -1 and 1 on a finite
    input.  A binary format rounds it to exactly 1 or -1 on a large finite
    input: the value given here on an infinite one. *)
Definition ftanh (x : float) : float :=
  match x with
  | Fin r => Fin (tanh r)
  | PInf => Fin 1
  | NInf => Fin (- 1)
  | NaN => NaN
  end.

(** Round half to even, the rule of [jnp.round]. *)
Definition round_half_even (r : R) : Z :=
  let f := Zfloor r in
  match total_order_T (r - IZR f) (1 / 2) with
  | inleft (left _) => f
  | inleft (right _) => if Z.even f then f else (f + 1)%Z
  | inright _ => (f + 1)%Z
  end.

Definition fround (x : float) : float :=
  match x with
  | Fin r => Fin (IZR (round_half_even r))
  | _ => x
  end.

(** Truncation towards zero. *)
Definition trunc (r : R) : Z :=
  if Rle_dec 0 r then Zfloor r else (- Zfloor (- r))%Z.

(** [.astype(jnp.uint32)] of a float: the truncated value when it is
    representable; the conversion of NaN, of an infinity or of a value
    outside [0, 2^32) is not defined (numpy warns of an invalid value in the
    cast and the result depends on the platform): [None]. *)
Definition astype_uint32 (x : float) : option Z :=
  match x with
  | Fin r =>
      let t := trunc r in
      if ((0 <=? t) && (t <? 4294967296))%Z then Some t else None
  | _ => None
  end.

End Float.

Import Float.

#[global] Instance exact : Dtype float := {|
  from_int := of_int;
  add := fadd;
  multiply := fmul;
  true_divide := fdiv;
  to_uint32 := Float.astype_uint32
|}.

(** ** The quantizer *)

(** [round_ste]: [jax.lax.stop_gradient] is the identity on values. *)
Definition round_ste (z : list float) : list float :=
  map (fun x => let zhat := fround x in fadd x (fsub zhat x)) z.

Module FSQ.

Import NumPy.

Record t (F : Type) : Type := mk {
  _levels : list Z;
  _eps : F;
  _levels_np : list Z;
  _basis : list Z;
  _implicit_codebook : list (list F)
}.

Arguments mk {F} _ _ _ _ _.
Arguments _levels {F} _.
Arguments _eps {F} _.
Arguments _levels_np {F} _.
Arguments _basis {F} _.
Arguments _implicit_codebook {F} _.

Section Methods.

Context {F : Type} {D : Dtype F}.

Definition num_dimensions (self : t F) : nat := length (_levels self).

Definition codebook_size (self : t F) : Z := prod (_levels self).

Definition codebook (self : t F) : list (list F) := _implicit_codebook self.

Definition bound (self : t float) (z : list float) : result (list float) :=
  let half_l :=
    map (fun L => fdiv (fmul (of_int (wrap_int64 (L - 1)))
                             (fsub (Fin 1) (_eps self)))
                       (Fin 2))
        (_levels_np self) in
  let offset :=
    map (fun L => if (L mod 2 =? 1)%Z then Fin 0 else Fin (1 / 2))
        (_levels_np self) in
  q <- broadcast2 fdiv offset half_l ;;
  let shift := map ftan q in
  s <- broadcast2 fadd z shift ;;
  p <- broadcast2 fmul (map ftanh s) half_l ;;
  broadcast2 fsub p offset.

Definition quantize (self : t float) (z : list float) : result (list float) :=
  b <- bound self z ;;
  let quantized := round_ste b in
  let half_width := map (fun L => (L / 2)%Z) (_levels_np self) in
  broadcast2 fdiv quantized (map of_int half_width).

Definition _scale_and_shift (self : t F) (zhat_normalized : list F)
    : result (list F) :=
  let half_width := map (fun L => (L / 2)%Z) (_levels_np self) in
  m <- broadcast2 multiply zhat_normalized (map from_int half_width) ;;
  broadcast2 add m (map from_int half_width).

(** Called on the integer array of digits only. *)
Definition _scale_and_shift_inverse (self : t F) (zhat : list Z)
    : result (list F) :=
  let half_width := map (fun L => (L / 2)%Z) (_levels_np self) in
  d <- broadcast2 (fun a h => wrap_int64 (a - h)) zhat half_width ;;
  broadcast2 (fun a h => true_divide (from_int a) (from_int h)) d half_width.

Definition codes_to_indexes (self : t F) (zhat : list F)
    : result (option Z) :=
  if Nat.eqb (length zhat) (num_dimensions self) then
    zhat' <- _scale_and_shift self zhat ;;
    p <- broadcast2 multiply zhat' (map from_int (_basis self)) ;;
    Ok (to_uint32 (sum_ p))
  else Raise AssertionError.

Definition indexes_to_codes (self : t F) (index : Z) : result (list F) :=
  let indices := [index] in
  q <- broadcast2 floor_divide indices (_basis self) ;;
  codes_non_centered <- broadcast2 mod_ q (_levels_np self) ;;
  _scale_and_shift_inverse self codes_non_centered.

(** The same method on a rank-1 array of indices: one row per index. *)
Definition indexes_to_codes_array (self : t F) (indices : list Z)
    : result (list (list F)) :=
  mapM (indexes_to_codes self) indices.

(** The constructor.  [_implicit_codebook] is computed by a method call on
    the object whose other attributes are already set. *)
Definition __init__ (levels : list Z) (eps : F) : result (t F) :=
  let levels_np := levels in
  let basis :=
    map NumPy.astype_uint32 (1%Z :: cumprod (removelast levels_np)) in
  let self := mk levels eps levels_np basis [] in
  cb <- indexes_to_codes_array self (arange (codebook_size self)) ;;
  Ok (mk levels eps levels_np basis cb).

End Methods.

End FSQ.

(** ** Per-dimension readings of the vectorised methods

    The methods act on whole arrays; the functions below are what one
    dimension (one level count [L]) contributes.  The lemmas of the next
    sections prove that the array methods compute exactly these. *)

Module Dim.

Import NumPy.

(** [half_l], [offset] and [half_width] of one dimension. *)
Definition half_l (eps : float) (L : Z) : float :=
  fdiv (fmul (of_int (wrap_int64 (L - 1))) (fsub (Fin 1) eps)) (Fin 2).

Definition offset (L : Z) : float :=
  if (L mod 2 =? 1)%Z then Fin 0 else Fin (1 / 2).

Definition half_width (L : Z) : Z := (L / 2)%Z.

(** One component of [bound]. *)
Definition bound (eps : float) (L : Z) (z : float) : float :=
  let shift := ftan (fdiv (offset L) (half_l eps L)) in
  fsub (fmul (ftanh (fadd z shift)) (half_l eps L)) (offset L).

(** One component of [quantize]. *)
Definition quantize (eps : float) (L : Z) (z : float) : float :=
  let b := bound eps L z in
  fdiv (fadd b (fsub (fround b) b)) (of_int (half_width L)).

(** One digit of [indexes_to_codes], and its renormalised value
    ([_scale_and_shift_inverse] on that digit). *)
Definition digit (index b L : Z) : Z := mod_ (floor_divide index b) L.

Definition level_value {F : Type} {D : Dtype F} (L d : Z) : F :=
  true_divide (from_int (wrap_int64 (d - half_width L)))
              (from_int (half_width L)).

(** One component of [_scale_and_shift]. *)
Definition scale_and_shift {F : Type} {D : Dtype F} (L : Z) (c : F) : F :=
  add (multiply c (from_int (half_width L))) (from_int (half_width L)).

(** The real-valued formulas of one component, for a finite input and a
    non-zero [half_l]: what the code computes ([bound_tan]) and what the
    specification describes ([spec_bound_arctan]). *)
Definition half_l_R (eps : R) (L : Z) : R :=
  (IZR (wrap_int64 (L - 1)) * (1 - eps) / 2)%R.

Definition offset_R (L : Z) : R :=
  if (L mod 2 =? 1)%Z then 0%R else (1 / 2)%R.

Definition bound_tan (eps : R) (L : Z) (z : R) : R :=
  (tanh (z + tan (offset_R L / half_l_R eps L)) * half_l_R eps L - offset_R L)%R.

Definition spec_bound_arctan (eps : R) (L : Z) (z : R) : R :=
  (tanh (z + atan (offset_R L / half_l_R eps L)) * half_l_R eps L - offset_R L)%R.

End Dim.

(** ** Mixed-radix numerals over [Z] *)

Module Radix.

Local Open Scope Z_scope.

(** Exact place values [b, b*L0, b*L0*L1, ...], one per level. *)
Fixpoint places (b : Z) (levels : list Z) : list Z :=
  match levels with
  | [] => []
  | L :: ls => b :: places (b * L) ls
  end.

(** Exact product of the level counts. *)
Definition product (levels : list Z) : Z := fold_right Z.mul 1 levels.

(** The digits of [index] at the given place values. *)
Fixpoint digits (index : Z) (bs levels : list Z) : list Z :=
  match bs, levels with
  | b :: bs', L :: ls => Dim.digit index b L :: digits index bs' ls
  | _, _ => []
  end.

(** The value of a digit string. *)
Fixpoint value (ds bs : list Z) : Z :=
  match ds, bs with
  | d :: ds', b :: bs' => d * b + value ds' bs'
  | _, _ => 0
  end.

(** A digit string is valid when each digit is below its level count. *)
Fixpoint valid_digits (ds levels : list Z) : Prop :=
  match ds, levels with
  | [], [] => True
  | d :: ds', L :: ls => 0 <= d < L /\ valid_digits ds' ls
  | _, _ => False
  end.

(** The codeword of a digit string. *)
Fixpoint codeword {F : Type} {D : Dtype F} (levels ds : list Z) : list F :=
  match levels, ds with
  | L :: ls, d :: ds' => Dim.level_value L d :: codeword ls ds'
  | _, _ => []
  end.

End Radix.

(** The basis the constructor stores. *)
Definition basis_of (levels : list Z) : list Z :=
  map NumPy.astype_uint32 (1%Z :: NumPy.cumprod (removelast levels)).

(** The digit string [quantize] selects for a finite input vector. *)
Fixpoint quantized_digits (eps : R) (levels : list Z) (z : list R) : list Z :=
  match levels, z with
  | L :: ls, x :: z' =>
      (round_half_even (Dim.bound_tan eps L x) + Dim.half_width L)%Z
      :: quantized_digits eps ls z'
  | _, _ => []
  end.

(** The codeword [indexes_to_codes] returns for an index. *)
Definition decode {F : Type} {D : Dtype F} (levels : list Z) (index : Z)
    : list F :=
  Radix.codeword levels (Radix.digits index (basis_of levels) levels).

(** The object [__init__] returns. *)
Definition instance {F : Type} {D : Dtype F} (levels : list Z) (eps : F)
    : FSQ.t F :=
  FSQ.mk levels eps levels (basis_of levels)
    (map (decode levels) (NumPy.arange (NumPy.prod levels))).

(** An object as [__init__] leaves its integer attributes. *)
Definition constructed {F : Type} (self : FSQ.t F) : Prop :=
  FSQ._levels_np self = FSQ._levels self /\
  FSQ._basis self = basis_of (FSQ._levels self).

(** The configurations on which the codec is exact in exact arithmetic:
    every dimension has at least two levels and every index fits the uint32
    index type. *)
Definition codec_config (levels : list Z) : Prop :=
  Forall (fun L => 2 <= L)%Z levels /\ (Radix.product levels <= 4294967296)%Z.

(** A configuration the constructor is specified to accept: at least one
    dimension, every level at least 1, and a product that fits the uint32
    index type. *)
Definition valid_config (levels : list Z) : Prop :=
  levels <> [] /\
  Forall (fun L => 1 <= L)%Z levels /\
  (Radix.product levels < 4294967296)%Z.

(** The default [eps = 1e-3] of the constructor, as float64 computes it. *)
Definition eps_float64 : spec_float :=
  SFdiv 53 1024 (IEEE.of_int IEEE.binary64 1) (IEEE.of_int IEEE.binary64 1000).

(** Whether an index survives [indexes_to_codes] followed by
    [codes_to_indexes], and whether the level of a digit of a single
    dimension is encoded as that digit. *)
Definition index_roundtrips {F : Type} {D : Dtype F} (self : FSQ.t F)
    (index : Z) : bool :=
  match FSQ.indexes_to_codes self index with
  | Ok c =>
      match FSQ.codes_to_indexes self c with
      | Ok (Some i) => (i =? index)%Z
      | _ => false
      end
  | Raise _ => false
  end.

Definition level_encodes {F : Type} {D : Dtype F} (self : FSQ.t F)
    (L d : Z) : bool :=
  match FSQ.codes_to_indexes self [Dim.level_value L d] with
  | Ok (Some i) => (i =? d)%Z
  | _ => false
  end.

(** Whether the codeword of the digits of an index is encoded as that
    index. *)
Definition digits_encode {F : Type} {D : Dtype F} (self : FSQ.t F)
    (levels : list Z) (index : Z) : bool :=
  match FSQ.codes_to_indexes self
          (Radix.codeword levels (Radix.digits index (basis_of levels) levels))
  with
  | Ok (Some i) => (i =? index)%Z
  | _ => false
  end.

(** Whether, in a binary format, [_scale_and_shift] returns exactly the
    digit [_scale_and_shift_inverse] was given (one dimension). *)
Definition digit_restored (D : Dtype spec_float) (self : FSQ.t spec_float)
    (d : Z) : bool :=
  match FSQ._scale_and_shift_inverse self [d] with
  | Ok c =>
      match FSQ._scale_and_shift self c with
      | Ok [x] => SFeqb x (from_int d)
      | _ => false
      end
  | Raise _ => false
  end.

(** * Lemmas *)

(** Lengths of mapped and zipped lists. *)
Ltac list_length :=
  repeat first [rewrite length_map | rewrite length_combine].

(** The operations of the element type [exact], by their names. *)
Ltac exact_ops :=
  cbn [from_int add multiply true_divide to_uint32 exact] in *.

(** ** Broadcasting *)

Section Broadcasting.

Import NumPy.

Context {A B C : Type} (f : A -> B -> C).

Lemma broadcast2_same_length (xs : list A) (ys : list B) :
  length xs = length ys ->
  broadcast2 f xs ys = Ok (map (fun p => f (fst p) (snd p)) (combine xs ys)).
Proof.
  intros Hlen. unfold broadcast2.
  now rewrite (proj2 (Nat.eqb_eq _ _) Hlen).
Qed.

Lemma broadcast2_stretch_left (x : A) (ys : list B) :
  broadcast2 f [x] ys = Ok (map (f x) ys).
Proof.
  unfold broadcast2.
  destruct ys as [|y [|y' ys]]; reflexivity.
Qed.

Lemma broadcast2_stretch_right (xs : list A) (y : B) :
  broadcast2 f xs [y] = Ok (map (fun x => f x y) xs).
Proof.
  unfold broadcast2.
  destruct xs as [|x [|x' xs]]; reflexivity.
Qed.

Lemma broadcast2_mismatch (xs : list A) (ys : list B) :
  length xs <> length ys -> length xs <> 1%nat -> length ys <> 1%nat ->
  broadcast2 f xs ys = Raise BroadcastError.
Proof.
  intros Hne Hx Hy. unfold broadcast2.
  rewrite (proj2 (Nat.eqb_neq _ _) Hne).
  destruct xs as [|x [|x' xs]]; destruct ys as [|y [|y' ys]];
    simpl in *; congruence.
Qed.

End Broadcasting.

(** ** The result monad *)

Lemma mapM_total {A B : Type} (f : A -> result B) (g : A -> B) (l : list A) :
  (forall a, f a = Ok (g a)) -> mapM f l = Ok (map g l).
Proof.
  intros Hf. induction l as [|a l IH]; simpl.
  - reflexivity.
  - now rewrite Hf, IH.
Qed.

(** ** Integer wrap-around *)

Section Wrapping.

Import NumPy.
Local Open Scope Z_scope.

Lemma wrap_int64_small (z : Z) :
  -9223372036854775808 <= z < 9223372036854775808 -> wrap_int64 z = z.
Proof.
  intros Hz. unfold wrap_int64.
  rewrite Z.mod_small by lia. lia.
Qed.

Lemma astype_uint32_small (z : Z) :
  0 <= z < 4294967296 -> astype_uint32 z = z.
Proof. intros Hz. unfold astype_uint32. now apply Z.mod_small. Qed.

Lemma product_pos (levels : list Z) :
  Forall (fun L => 1 <= L) levels -> 1 <= Radix.product levels.
Proof.
  induction 1 as [|L ls HL _ IH]; simpl; [lia | nia].
Qed.

Lemma product_removelast_le (levels : list Z) :
  Forall (fun L => 1 <= L) levels ->
  Radix.product (removelast levels) <= Radix.product levels.
Proof.
  induction 1 as [|L ls HL Hls IH]; [simpl; lia|].
  destruct ls as [|L' ls'].
  - simpl. lia.
  - change (removelast (L :: L' :: ls')) with (L :: removelast (L' :: ls')).
    change (Radix.product (L :: ?l)) with (L * Radix.product l).
    change (L * Radix.product (removelast (L' :: ls'))
            <= L * Radix.product (L' :: ls')).
    nia.
Qed.

(** When the running product stays below 2^32 the stored basis holds the
    exact place values. *)
Lemma cumprod_from_exact (levels : list Z) (acc : Z) :
  Forall (fun L => 1 <= L) levels -> 1 <= acc ->
  acc * Radix.product (removelast levels) < 4294967296 ->
  map astype_uint32 (acc :: cumprod_from acc (removelast levels))
  = match levels with [] => [acc] | _ => Radix.places acc levels end.
Proof.
  intros Hpos. revert acc.
  induction Hpos as [|L ls HL Hls IH]; intros acc Hacc Hbound.
  - simpl in *. rewrite astype_uint32_small by lia. reflexivity.
  - destruct ls as [|L' ls'].
    + simpl in *. rewrite astype_uint32_small by lia. reflexivity.
    + change (removelast (L :: L' :: ls')) with (L :: removelast (L' :: ls')) in *.
      assert (Hp : 1 <= Radix.product (removelast (L' :: ls'))).
      { apply product_pos.
        clear - Hls. revert Hls. generalize (L' :: ls') as l.
        induction l as [|a [|b l] IHl]; intros H; simpl; auto.
        inversion H; subst. constructor; auto. }
      change (Radix.product (L :: ?l)) with (L * Radix.product l) in Hbound.
      assert (Hacc' : acc * L < 4294967296) by nia.
      cbn [cumprod_from].
      rewrite wrap_int64_small by nia.
      change (map astype_uint32 (acc :: ?l)) with (astype_uint32 acc :: map astype_uint32 l).
      rewrite astype_uint32_small by nia.
      specialize (IH (acc * L) ltac:(nia) ltac:(nia)).
      rewrite IH. reflexivity.
Qed.

Lemma basis_of_exact (levels : list Z) :
  levels <> [] -> Forall (fun L => 1 <= L) levels ->
  Radix.product (removelast levels) < 4294967296 ->
  basis_of levels = Radix.places 1 levels.
Proof.
  intros Hne Hpos Hbound. unfold basis_of, cumprod.
  rewrite cumprod_from_exact by (auto; lia).
  destruct levels; congruence.
Qed.

Lemma prod_exact (levels : list Z) :
  Forall (fun L => 1 <= L) levels ->
  Radix.product levels < 9223372036854775808 ->
  prod levels = Radix.product levels.
Proof.
  intros Hpos Hbound. unfold prod.
  assert (G : forall acc, 1 <= acc ->
              acc * Radix.product levels < 9223372036854775808 ->
              fold_left (fun a x => wrap_int64 (a * x)) levels acc
              = acc * Radix.product levels).
  { clear Hbound. induction Hpos as [|L ls HL Hls IH]; intros acc Hacc Hb; simpl in *.
    - lia.
    - pose proof (product_pos ls Hls) as Hp.
      rewrite wrap_int64_small by nia.
      rewrite IH by nia. ring. }
  rewrite G by lia. lia.
Qed.

End Wrapping.

(** ** Decoding: [indexes_to_codes] and the constructor *)

Section Decoding.

Import NumPy.

Context {F : Type} {D : Dtype F}.

Lemma length_basis_of (levels : list Z) :
  levels <> [] -> length (basis_of levels) = length levels.
Proof.
  intros Hne. unfold basis_of, cumprod.
  rewrite length_map. simpl. f_equal.
  generalize 1%Z as acc.
  induction levels as [|L ls IH]; [congruence|].
  destruct ls as [|L' ls']; intros acc.
  - reflexivity.
  - change (removelast (L :: L' :: ls')) with (L :: removelast (L' :: ls')).
    cbn [cumprod_from length]. f_equal.
    rewrite IH by congruence. reflexivity.
Qed.

(** The zipped array pipeline of [indexes_to_codes] is the digit string's
    codeword. *)
Lemma decode_pipeline (index : Z) (bs ls : list Z) :
  let hw := map (fun L => (L / 2)%Z) ls in
  let q := map (floor_divide index) bs in
  let ds := map (fun p => mod_ (fst p) (snd p)) (combine q ls) in
  let cs := map (fun p => wrap_int64 (fst p - snd p)) (combine ds hw) in
  map (fun p => true_divide (from_int (fst p)) (from_int (snd p)))
      (combine cs hw)
  = Radix.codeword ls (Radix.digits index bs ls).
Proof.
  cbv zeta. revert ls.
  induction bs as [|b bs IH]; intros [|L ls]; try reflexivity.
  cbn [map combine fst snd Radix.digits Radix.codeword].
  now rewrite IH.
Qed.

Lemma indexes_to_codes_eq (self : FSQ.t F) (index : Z) :
  constructed self ->
  FSQ.indexes_to_codes self index
  = Ok (Radix.codeword (FSQ._levels self)
          (Radix.digits index (FSQ._basis self) (FSQ._levels self))).
Proof.
  intros [Hnp Hbasis].
  unfold FSQ.indexes_to_codes, FSQ._scale_and_shift_inverse.
  rewrite Hnp, broadcast2_stretch_left. cbn [bind].
  destruct (FSQ._levels self) as [|L ls] eqn:Elev.
  - rewrite Hbasis. cbn [basis_of removelast cumprod cumprod_from map].
    rewrite broadcast2_stretch_left. reflexivity.
  - assert (Hlen : length (FSQ._basis self) = length (L :: ls)).
    { rewrite Hbasis. apply length_basis_of. congruence. }
    rewrite broadcast2_same_length by (list_length; now rewrite Hlen).
    cbn [bind].
    rewrite broadcast2_same_length
      by (list_length; now rewrite Hlen, ?Nat.min_id).
    cbn [bind].
    rewrite broadcast2_same_length
      by (list_length; now rewrite Hlen, ?Nat.min_id).
    f_equal. apply decode_pipeline.
Qed.

Lemma init_eq (levels : list Z) (eps : F) :
  FSQ.__init__ levels eps = Ok (instance levels eps).
Proof.
  unfold FSQ.__init__, FSQ.indexes_to_codes_array.
  rewrite (mapM_total _ (decode levels)).
  - reflexivity.
  - intros index. now rewrite indexes_to_codes_eq by (split; reflexivity).
Qed.

Lemma init_constructed (levels : list Z) (eps : F) (self : FSQ.t F) :
  FSQ.__init__ levels eps = Ok self ->
  constructed self /\ FSQ._levels self = levels /\ FSQ._eps self = eps.
Proof.
  rewrite init_eq. intros [= <-]. repeat split.
Qed.

End Decoding.

(** ** Mixed-radix arithmetic *)

Section MixedRadix.

Local Open Scope Z_scope.

Lemma digit_eq (index b L : Z) :
  b <> 0 -> L <> 0 -> Dim.digit index b L = (index / b) mod L.
Proof.
  intros Hb HL. unfold Dim.digit, NumPy.mod_, NumPy.floor_divide.
  destruct (Z.eqb_spec b 0); [contradiction|].
  destruct (Z.eqb_spec L 0); [contradiction|]. reflexivity.
Qed.

(** Recomposing the digits of an index gives the index modulo the product. *)
Lemma value_digits (levels : list Z) :
  Forall (fun L => 1 <= L) levels ->
  forall b index, 1 <= b ->
  Radix.value (Radix.digits index (Radix.places b levels) levels)
              (Radix.places b levels)
  = b * ((index / b) mod Radix.product levels).
Proof.
  induction 1 as [|L ls HL Hls IH]; intros b index Hb.
  - simpl. rewrite Z.mod_1_r. lia.
  - cbn [Radix.places Radix.digits Radix.value Radix.product fold_right].
    fold (Radix.product ls).
    pose proof (product_pos ls Hls) as Hp.
    rewrite IH by nia.
    rewrite digit_eq by lia.
    rewrite (Z.rem_mul_r (index / b) L (Radix.product ls)) by lia.
    rewrite Z.div_div by lia. ring.
Qed.

Lemma digits_valid (levels : list Z) :
  Forall (fun L => 1 <= L) levels ->
  forall b index, 1 <= b ->
  Radix.valid_digits (Radix.digits index (Radix.places b levels) levels) levels.
Proof.
  induction 1 as [|L ls HL Hls IH]; intros b index Hb; simpl.
  - exact I.
  - split.
    + rewrite digit_eq by lia. apply Z.mod_pos_bound. lia.
    + apply IH. nia.
Qed.

Lemma value_multiple (levels ds : list Z) (b : Z) :
  exists m, Radix.value ds (Radix.places b levels) = b * m.
Proof.
  revert ds b. induction levels as [|L ls IH]; intros ds b.
  - exists 0. destruct ds; simpl; lia.
  - destruct ds as [|d ds].
    + exists 0. simpl. lia.
    + cbn [Radix.places Radix.value].
      destruct (IH ds (b * L)) as [m Hm]. rewrite Hm.
      exists (d + L * m). ring.
Qed.

Lemma value_bounds (levels : list Z) :
  forall ds b, Radix.valid_digits ds levels -> 1 <= b ->
  0 <= Radix.value ds (Radix.places b levels) <= b * (Radix.product levels - 1).
Proof.
  induction levels as [|L ls IH]; intros [|d ds] b Hv Hb; simpl in Hv;
    try contradiction.
  - simpl. lia.
  - destruct Hv as [Hd Hv].
    cbn [Radix.places Radix.value Radix.product fold_right].
    fold (Radix.product ls).
    specialize (IH ds (b * L) Hv ltac:(nia)).
    nia.
Qed.

(** The digits of a recomposed digit string are that string: the place
    values form a positional system. *)
Lemma digits_value (levels : list Z) :
  forall ds b r, Radix.valid_digits ds levels -> 1 <= b -> 0 <= r < b ->
  Radix.digits (Radix.value ds (Radix.places b levels) + r)
               (Radix.places b levels) levels = ds.
Proof.
  induction levels as [|L ls IH]; intros [|d ds] b r Hv Hb Hr; simpl in Hv;
    try contradiction.
  - reflexivity.
  - destruct Hv as [Hd Hv].
    cbn [Radix.places Radix.value Radix.digits].
    f_equal.
    + rewrite digit_eq by lia.
      destruct (value_multiple ls ds (b * L)) as [m Hm]. rewrite Hm.
      replace (d * b + b * L * m + r) with (r + (d + L * m) * b) by ring.
      rewrite Z.div_add by lia.
      rewrite Z.div_small by lia.
      replace (0 + (d + L * m)) with (d + m * L) by ring.
      rewrite Z.mod_add by lia.
      apply Z.mod_small. lia.
    + replace (d * b + Radix.value ds (Radix.places (b * L) ls) + r)
        with (Radix.value ds (Radix.places (b * L) ls) + (b * d + r)) by ring.
      apply IH; [assumption | nia | nia].
Qed.

(** Digit extraction is periodic in the product of the levels. *)
Lemma digits_periodic (levels : list Z) (index : Z) :
  Forall (fun L => 1 <= L) levels ->
  Radix.digits (index mod Radix.product levels) (Radix.places 1 levels) levels
  = Radix.digits index (Radix.places 1 levels) levels.
Proof.
  intros Hpos.
  pose proof (value_digits levels Hpos 1 index ltac:(lia)) as Hval.
  rewrite Z.div_1_r, Z.mul_1_l in Hval.
  rewrite <- Hval.
  rewrite <- (Z.add_0_r (Radix.value _ _)).
  apply digits_value; [apply digits_valid; [assumption | lia] | lia | lia].
Qed.

End MixedRadix.

(** ** Encoding: [codes_to_indexes] on the codeword of a digit string *)

Section Encoding.

Import NumPy.
Local Open Scope R_scope.

Lemma fdiv_fin (a b : R) : b <> 0 -> fdiv (Fin a) (Fin b) = Fin (a / b).
Proof.
  intros Hb. unfold fdiv. destruct (Req_dec_T b 0); [contradiction | reflexivity].
Qed.

Lemma fdiv_zero_zero : fdiv (Fin 0) (Fin 0) = NaN.
Proof.
  unfold fdiv, signed_inf.
  destruct (Req_dec_T 0 0) as [_|Hne]; [|now elim Hne].
  destruct (Rlt_dec 0 0) as [H|_]; [lra|].
  destruct (Rlt_dec 0 0) as [H|_]; [lra|]. reflexivity.
Qed.

Lemma half_width_pos (L : Z) : (2 <= L)%Z -> (1 <= Dim.half_width L)%Z.
Proof.
  intros HL. unfold Dim.half_width.
  apply Z.div_le_lower_bound; lia.
Qed.

Lemma half_width_le (L : Z) : (2 <= L)%Z -> (2 * Dim.half_width L <= L)%Z.
Proof.
  intros HL. unfold Dim.half_width.
  apply Z.mul_div_le. lia.
Qed.

(** The renormalised value of a digit is a finite quotient. *)
Lemma level_value_fin (L d : Z) :
  (2 <= L < 9223372036854775808)%Z -> (0 <= d < L)%Z ->
  Dim.level_value L d
  = Fin (IZR (d - Dim.half_width L) / IZR (Dim.half_width L)).
Proof.
  intros HL Hd. unfold Dim.level_value. exact_ops. unfold of_int.
  pose proof (half_width_pos L ltac:(lia)) as Hhw.
  pose proof (half_width_le L ltac:(lia)) as Hhw'.
  rewrite wrap_int64_small by lia.
  apply fdiv_fin. apply not_0_IZR. lia.
Qed.

(** [_scale_and_shift] recovers the digit. *)
Lemma scale_and_shift_level (L d : Z) :
  (2 <= L < 9223372036854775808)%Z -> (0 <= d < L)%Z ->
  Dim.scale_and_shift L (Dim.level_value L d) = of_int d.
Proof.
  intros HL Hd. rewrite level_value_fin by assumption.
  pose proof (half_width_pos L ltac:(lia)) as Hhw.
  unfold Dim.scale_and_shift. exact_ops. unfold of_int.
  cbn [fmul fadd]. f_equal.
  rewrite minus_IZR. field. apply not_0_IZR. lia.
Qed.

Lemma astype_uint32_of_int (s : Z) :
  (0 <= s < 4294967296)%Z -> Float.astype_uint32 (of_int s) = Some s.
Proof.
  intros Hs. unfold Float.astype_uint32, of_int, trunc.
  destruct (Rle_dec 0 (IZR s)) as [_|Hneg].
  - rewrite ZfloorZ.
    destruct (Z.leb_spec 0 s); [|lia].
    destruct (Z.ltb_spec s 4294967296); [|lia]. reflexivity.
  - elim Hneg. apply IZR_le. lia.
Qed.

(** The zipped array pipeline of [codes_to_indexes], summed from [acc]. *)
Lemma encode_pipeline (levels : list Z) :
  forall (ds bs : list Z) (acc : Z),
  Forall (fun L => 2 <= L < 9223372036854775808)%Z levels ->
  Radix.valid_digits ds levels -> length bs = length levels ->
  let hw := map of_int (map (fun L => (L / 2)%Z) levels) in
  let m := map (fun p => fmul (fst p) (snd p))
               (combine (Radix.codeword levels ds) hw) in
  let zhat' := map (fun p => fadd (fst p) (snd p)) (combine m hw) in
  let p := map (fun p => fmul (fst p) (snd p)) (combine zhat' (map of_int bs)) in
  fold_left fadd p (of_int acc) = of_int (acc + Radix.value ds bs).
Proof.
  cbv zeta.
  induction levels as [|L ls IH]; intros [|d ds] [|b bs] acc HL Hv Hlen;
    simpl in Hv, Hlen; try contradiction; try discriminate.
  - simpl. now rewrite Z.add_0_r.
  - destruct Hv as [Hd Hv]. inversion HL as [|? ? HL1 HL2]; subst.
    cbn [Radix.codeword map combine fst snd fold_left Radix.value].
    change (fadd (fmul (Dim.level_value L d) (of_int (L / 2))) (of_int (L / 2)))
      with (Dim.scale_and_shift L (Dim.level_value L d)).
    rewrite scale_and_shift_level by assumption.
    replace (fadd (of_int acc) (fmul (of_int d) (of_int b)))
      with (of_int (acc + d * b)).
    + rewrite IH by (auto; lia). f_equal. ring.
    + unfold of_int. cbn [fmul fadd]. now rewrite plus_IZR, mult_IZR.
Qed.

Lemma valid_digits_length (levels ds : list Z) :
  Radix.valid_digits ds levels -> length ds = length levels.
Proof.
  revert ds. induction levels as [|L ls IH]; intros [|d ds] Hv; simpl in *;
    try contradiction; auto.
  destruct Hv as [_ Hv]. now rewrite (IH ds Hv).
Qed.

Lemma length_codeword (levels ds : list Z) :
  length ds = length levels -> length (Radix.codeword levels ds) = length levels.
Proof.
  revert ds. induction levels as [|L ls IH]; intros [|d ds] Hlen; simpl in *;
    try discriminate; auto.
Qed.

(** Encoding the codeword of a valid digit string yields its value. *)
Lemma codes_to_indexes_codeword (self : FSQ.t float) (ds : list Z) :
  constructed self -> FSQ._levels self <> [] ->
  Forall (fun L => 2 <= L < 9223372036854775808)%Z (FSQ._levels self) ->
  Radix.valid_digits ds (FSQ._levels self) ->
  FSQ.codes_to_indexes self (Radix.codeword (FSQ._levels self) ds)
  = Ok (Float.astype_uint32 (of_int (Radix.value ds (FSQ._basis self)))).
Proof.
  intros [Hnp Hbasis] Hne HL Hv.
  pose proof (valid_digits_length _ _ Hv) as Hds.
  pose proof (length_codeword _ _ Hds) as Hc.
  assert (Hb : length (FSQ._basis self) = length (FSQ._levels self)).
  { rewrite Hbasis. now apply length_basis_of. }
  unfold FSQ.codes_to_indexes, FSQ.num_dimensions, FSQ._scale_and_shift.
  rewrite Hc, Nat.eqb_refl, Hnp.
  rewrite broadcast2_same_length by (list_length; now rewrite Hc).
  cbn [bind].
  rewrite broadcast2_same_length
    by (list_length; now rewrite Hc, ?Nat.min_id).
  cbn [bind].
  rewrite broadcast2_same_length
    by (list_length; now rewrite Hc, Hb, ?Nat.min_id).
  cbn [bind]. unfold sum_. exact_ops. do 2 f_equal.
  now rewrite encode_pipeline.
Qed.

End Encoding.

(** ** Configurations without overflow *)

Section Configurations.

Import NumPy.
Local Open Scope Z_scope.

Lemma Forall_two_one (levels : list Z) :
  Forall (fun L => 2 <= L) levels -> Forall (fun L => 1 <= L) levels.
Proof. apply Forall_impl. intros; lia. Qed.

Lemma level_le_product (levels : list Z) :
  Forall (fun L => 1 <= L) levels ->
  Forall (fun L => L <= Radix.product levels) levels.
Proof.
  induction 1 as [|L ls HL Hls IH]; constructor.
  - change (L <= L * Radix.product ls).
    pose proof (product_pos ls Hls). nia.
  - eapply Forall_impl; [|exact IH]. intros a Ha. cbv beta in Ha.
    change (a <= L * Radix.product ls).
    pose proof (product_pos ls Hls). nia.
Qed.

Lemma product_removelast_half (levels : list Z) :
  levels <> [] -> Forall (fun L => 2 <= L) levels ->
  2 * Radix.product (removelast levels) <= Radix.product levels.
Proof.
  intros Hne Hall. induction Hall as [|L ls HL Hls IH]; [congruence|].
  destruct ls as [|L' ls'].
  - simpl. lia.
  - change (removelast (L :: L' :: ls')) with (L :: removelast (L' :: ls')).
    change (Radix.product (L :: ?l)) with (L * Radix.product l).
    specialize (IH ltac:(congruence)). nia.
Qed.

(** What a codec configuration gives the proofs below. *)
Lemma codec_config_facts (levels : list Z) :
  levels <> [] -> codec_config levels ->
  Forall (fun L => 2 <= L < 9223372036854775808) levels /\
  basis_of levels = Radix.places 1 levels /\
  prod levels = Radix.product levels.
Proof.
  intros Hne [Hall Hprod].
  pose proof (Forall_two_one levels Hall) as Hpos.
  pose proof (product_removelast_half levels Hne Hall) as Hhalf.
  repeat split.
  - pose proof (level_le_product levels Hpos) as Hle.
    rewrite Forall_forall in *. intros L HL.
    specialize (Hall L HL). specialize (Hle L HL). lia.
  - apply basis_of_exact; auto. lia.
  - apply prod_exact; auto. lia.
Qed.

End Configurations.

(** ** Real analysis: hyperbolic tangent and rounding *)

Section Analysis.

Local Open Scope R_scope.

Lemma tanh_bounds (x : R) : -1 < tanh x < 1.
Proof.
  unfold tanh, sinh, cosh.
  pose proof (exp_pos x) as Ha. pose proof (exp_pos (- x)) as Hb.
  set (a := exp x) in *. set (b := exp (- x)) in *.
  assert (Hs : 0 < a + b) by lra.
  assert (E1 : (a - b) / 2 / ((a + b) / 2) = 1 - 2 * b / (a + b)) by (field; lra).
  assert (E2 : (a - b) / 2 / ((a + b) / 2) = -1 + 2 * a / (a + b)) by (field; lra).
  assert (0 < 2 * b / (a + b)) by (apply Rdiv_lt_0_compat; lra).
  assert (0 < 2 * a / (a + b)) by (apply Rdiv_lt_0_compat; lra).
  split; [rewrite E2 | rewrite E1]; lra.
Qed.

Lemma tanh_increasing (x y : R) : x < y -> tanh x < tanh y.
Proof.
  intros Hxy. unfold tanh, sinh, cosh.
  pose proof (exp_pos x) as Ha. pose proof (exp_pos (- x)) as Hb.
  pose proof (exp_pos y) as Hc. pose proof (exp_pos (- y)) as Hd.
  pose proof (exp_increasing x y Hxy) as Hac.
  pose proof (exp_increasing (- y) (- x) ltac:(lra)) as Hdb.
  set (a := exp x) in *. set (b := exp (- x)) in *.
  set (c := exp y) in *. set (d := exp (- y)) in *.
  apply Rlt_0_minus.
  replace ((c - d) / 2 / ((c + d) / 2) - (a - b) / 2 / ((a + b) / 2))
    with (2 * (c * b - a * d) / ((a + b) * (c + d))) by (field; lra).
  apply Rdiv_lt_0_compat; nra.
Qed.

Lemma tanh_injective (x y : R) : tanh x = tanh y -> x = y.
Proof.
  intros Heq. destruct (Rtotal_order x y) as [H | [H | H]]; [|assumption|].
  - apply tanh_increasing in H. lra.
  - apply tanh_increasing in H. lra.
Qed.

Lemma round_half_even_cases (r : R) :
  round_half_even r = Zfloor r \/
  (round_half_even r = (Zfloor r + 1)%Z /\ 1 / 2 <= r - IZR (Zfloor r)).
Proof.
  unfold round_half_even.
  destruct (total_order_T (r - IZR (Zfloor r)) (1 / 2)) as [[Hlt | Heq] | Hgt].
  - now left.
  - destruct (Z.even (Zfloor r)); [now left | right; split; [reflexivity | lra]].
  - right. split; [reflexivity | lra].
Qed.

Lemma round_half_even_ge (r : R) (m : Z) :
  IZR m <= r -> (m <= round_half_even r)%Z.
Proof.
  intros Hm. pose proof (Zfloor_lub m r Hm) as Hf.
  destruct (round_half_even_cases r) as [-> | [-> _]]; lia.
Qed.

Lemma round_half_even_le (r : R) (m : Z) :
  r <= IZR m -> (round_half_even r <= m)%Z.
Proof.
  intros Hm. pose proof (Zfloor_bound r) as [Hlo Hhi].
  assert (Hf : (Zfloor r <= m)%Z) by (apply le_IZR; lra).
  destruct (round_half_even_cases r) as [-> | [-> Hfrac]]; [assumption|].
  assert (Hlt : (Zfloor r < m)%Z) by (apply lt_IZR; lra).
  lia.
Qed.

Lemma round_half_even_near (r : R) (m : Z) :
  - (1 / 2) < r - IZR m < 1 / 2 -> round_half_even r = m.
Proof.
  intros Hr.
  destruct (Rle_dec (IZR m) r) as [Hle | Hgt].
  - assert (Hf : Zfloor r = m) by (apply Zfloor_eq; lra).
    unfold round_half_even. rewrite Hf.
    destruct (total_order_T (r - IZR m) (1 / 2)) as [[_ | Heq] | Hbig];
      [reflexivity | lra | lra].
  - assert (Hf : Zfloor r = (m - 1)%Z)
      by (apply Zfloor_eq; rewrite minus_IZR; lra).
    unfold round_half_even. rewrite Hf, minus_IZR.
    destruct (total_order_T (r - (IZR m - 1)) (1 / 2)) as [[Hsmall | Heq] | _];
      [lra | lra | lia].
Qed.

Lemma tanh_0 : tanh 0 = 0.
Proof. unfold tanh. rewrite sinh_0, cosh_0. lra. Qed.

End Analysis.


(** Numeric bounds on the hyperbolic tangent, from [1 + x <= exp x] and
    [(1 + x/4)^4 <= exp x]. *)

Section TanhBounds.

Local Open Scope R_scope.

Lemma tanh_exp (x : R) :
  exists a b, 0 < a /\ 0 < b /\ a * b = 1 /\ 1 + x <= a /\ 1 - x <= b /\
              tanh x * (a + b) = a - b.
Proof.
  exists (exp x), (exp (- x)).
  pose proof (exp_pos x) as Ha. pose proof (exp_pos (- x)) as Hb.
  repeat split; try assumption.
  - rewrite <- exp_plus. replace (x + - x) with 0 by ring. apply exp_0.
  - apply exp_ineq1_le.
  - replace (1 - x) with (1 + - x) by ring. apply exp_ineq1_le.
  - unfold tanh, sinh, cosh. field. lra.
Qed.

Lemma exp_ge_pow4 (x : R) : 0 <= 1 + x / 4 -> (1 + x / 4) ^ 4 <= exp x.
Proof.
  intros Hx.
  replace x with (x / 4 + x / 4 + (x / 4 + x / 4)) at 2 by field.
  rewrite !exp_plus.
  pose proof (exp_ineq1_le (x / 4)) as Hle.
  set (e := exp (x / 4)) in *.
  replace (e * e * (e * e)) with (e ^ 4) by ring.
  apply pow_incr. lra.
Qed.

Lemma tanh_exp4 (x : R) :
  exists a b, 0 < a /\ 0 < b /\ a * b = 1 /\
              (0 <= 1 + x / 4 -> (1 + x / 4) ^ 4 <= a) /\
              (0 <= 1 - x / 4 -> (1 - x / 4) ^ 4 <= b) /\
              tanh x * (a + b) = a - b.
Proof.
  exists (exp x), (exp (- x)).
  pose proof (exp_pos x) as Ha. pose proof (exp_pos (- x)) as Hb.
  repeat split; try assumption.
  - rewrite <- exp_plus. replace (x + - x) with 0 by ring. apply exp_0.
  - apply exp_ge_pow4.
  - intros H. replace (1 - x / 4) with (1 + - x / 4) by field.
    apply exp_ge_pow4. lra.
  - unfold tanh, sinh, cosh. field. lra.
Qed.

Lemma tanh_quarter : 0 < tanh (1 / 4) < 1 / 3.
Proof.
  split.
  - rewrite <- tanh_0. apply tanh_increasing. lra.
  - destruct (tanh_exp (1 / 4)) as (a & b & Ha & Hb & Hab & Hla & Hlb & Ht).
    nra.
Qed.

Lemma tanh_three_fifths : 1 / 3 < tanh (3 / 5) < 3 / 4.
Proof.
  destruct (tanh_exp (3 / 5)) as (a & b & Ha & Hb & Hab & Hla & Hlb & Ht).
  split; nra.
Qed.

Lemma tanh_minus_three_fifths :
  - (23 / 40) < tanh (- (3 / 5)) < - (503 / 1000).
Proof.
  destruct (tanh_exp4 (- (3 / 5))) as (a & b & Hpa & Hpb & Hab & Ha & Hb & Ht).
  specialize (Ha ltac:(lra)). specialize (Hb ltac:(lra)).
  assert (Ha' : 52 / 100 <= a) by (simpl in Ha; lra).
  assert (Hb' : 174 / 100 <= b) by (simpl in Hb; lra).
  clear Ha Hb.
  set (t := tanh _) in *.
  assert (H1 : 17 * b < 63 * a) by nra.
  assert (H2 : 1503 * a < 497 * b) by nra.
  split; nra.
Qed.

Lemma tanh_minus_six : tanh (- 6) < - (3 / 4).
Proof.
  destruct (tanh_exp (- 6)) as (a & b & Ha & Hb & Hab & Hla & Hlb & Ht).
  nra.
Qed.

End TanhBounds.

(** ** Tangent and arctangent near zero *)

Section Tangent.

Local Open Scope R_scope.

Lemma tan_gt_x (x : R) : 0 < x <= 1 -> x < tan x.
Proof.
  intros [Hpos Hle].
  assert (Hcos : 0 < cos x) by (apply cos_gt_0; pose proof PI2_1; lra).
  assert (Hc : cos x <= 1 - x ^ 2 / 2 + x ^ 4 / 24).
  { destruct (pre_cos_bound x 0) as [_ Hub]; try lra.
    revert Hub. unfold cos_approx, cos_term. simpl. intros Hub.
    eapply Rle_trans; [exact Hub|]. apply Req_le. field. }
  assert (Hs : x - x ^ 3 / 6 <= sin x).
  { destruct (pre_sin_bound x 0) as [Hlb _]; try lra.
    revert Hlb. unfold sin_approx, sin_term. simpl. intros Hlb.
    eapply Rle_trans; [|exact Hlb]. apply Req_le. field. }
  assert (Hx2 : 0 < x ^ 2 <= 1) by nra.
  assert (Hx3 : 0 < x ^ 3) by (apply pow_lt; assumption).
  assert (Hgap : x * (1 - x ^ 2 / 2 + x ^ 4 / 24) < x - x ^ 3 / 6).
  { apply Rlt_0_minus.
    replace (x - x ^ 3 / 6 - x * (1 - x ^ 2 / 2 + x ^ 4 / 24))
      with (x ^ 3 * (1 / 3 - x ^ 2 / 24)) by field.
    apply Rmult_lt_0_compat; lra. }
  assert (Hmul : x * cos x < sin x) by nra.
  apply Rlt_0_minus. unfold tan.
  replace (sin x / cos x - x) with ((sin x - x * cos x) / cos x)
    by (field; lra).
  apply Rdiv_lt_0_compat; lra.
Qed.

Lemma atan_lt_x (x : R) : 0 < x <= 1 -> atan x < x.
Proof.
  intros Hx. pose proof (tan_gt_x x Hx) as Ht.
  apply atan_increasing in Ht.
  rewrite atan_tan in Ht by (pose proof PI2_1; lra).
  assumption.
Qed.

End Tangent.

(** ** One dimension of [bound] and [quantize] *)

Section OneDimension.

Import NumPy.
Local Open Scope R_scope.

Variable eps : R.

Lemma half_l_eq (L : Z) : Dim.half_l (Fin eps) L = Fin (Dim.half_l_R eps L).
Proof.
  unfold Dim.half_l, Dim.half_l_R, of_int. cbn [fmul fsub].
  apply fdiv_fin. lra.
Qed.

Lemma offset_eq (L : Z) : Dim.offset L = Fin (Dim.offset_R L).
Proof. unfold Dim.offset, Dim.offset_R. now destruct (L mod 2 =? 1)%Z. Qed.

(** On a finite input and with a non-zero [half_l], one component of
    [bound] is the closed formula [bound_tan]. *)
Lemma bound_fin (L : Z) (z : R) :
  Dim.half_l_R eps L <> 0 ->
  Dim.bound (Fin eps) L (Fin z) = Fin (Dim.bound_tan eps L z).
Proof.
  intros Hh. unfold Dim.bound, Dim.bound_tan.
  rewrite half_l_eq, offset_eq, fdiv_fin by assumption.
  reflexivity.
Qed.

(** The straight-through rounding of a finite value is the rounded value. *)
Lemma round_ste_fin (x : R) :
  fadd (Fin x) (fsub (fround (Fin x)) (Fin x)) = of_int (round_half_even x).
Proof. unfold of_int. cbn [fround fsub fadd]. f_equal. ring. Qed.

Hypothesis eps_range : 0 <= eps < 1.

Lemma half_l_pos (L : Z) :
  (2 <= L < 9223372036854775808)%Z -> 0 < Dim.half_l_R eps L.
Proof.
  intros HL. unfold Dim.half_l_R.
  rewrite wrap_int64_small by lia.
  assert (1 <= IZR (L - 1)) by (apply IZR_le; lia).
  nra.
Qed.

(** The rounded bounded value, shifted by [half_width], is a digit. *)
Lemma bound_digit (L : Z) (z : R) :
  (2 <= L < 9223372036854775808)%Z ->
  (0 <= round_half_even (Dim.bound_tan eps L z) + Dim.half_width L < L)%Z.
Proof.
  intros HL.
  pose proof (half_width_pos L ltac:(lia)) as Hhw.
  pose proof (Z.div_mod L 2 ltac:(lia)) as HLdiv.
  fold (Dim.half_width L) in HLdiv.
  set (hw := Dim.half_width L) in *.
  pose proof (tanh_bounds (z + tan (Dim.offset_R L / Dim.half_l_R eps L)))
    as [Hlo Hhi].
  pose proof (half_l_pos L HL) as Hh.
  assert (Hhw1 : 1 <= IZR hw) by (apply IZR_le; lia).
  unfold Dim.bound_tan.
  set (t := tanh _) in *.
  assert (Hhl : Dim.half_l_R eps L = IZR (L - 1) * (1 - eps) / 2).
  { unfold Dim.half_l_R. now rewrite wrap_int64_small by lia. }
  pose proof (Z.mod_pos_bound L 2 ltac:(lia)) as Hmod.
  unfold Dim.offset_R.
  destruct (Z.eqb_spec (L mod 2) 1) as [Hodd | Heven].
  - assert (HL1 : IZR (L - 1) = 2 * IZR hw).
    { rewrite <- mult_IZR. f_equal. lia. }
    rewrite Hhl, HL1 in *.
    assert (Hupper : t * (2 * IZR hw * (1 - eps) / 2) - 0 <= IZR hw) by nra.
    assert (Hlower : IZR (- hw) <= t * (2 * IZR hw * (1 - eps) / 2) - 0)
      by (rewrite opp_IZR; nra).
    apply round_half_even_le in Hupper.
    apply round_half_even_ge in Hlower.
    lia.
  - assert (HL1 : IZR (L - 1) = 2 * IZR hw - 1).
    { replace (L - 1)%Z with (2 * hw - 1)%Z by lia.
      now rewrite minus_IZR, mult_IZR. }
    rewrite Hhl, HL1 in *.
    assert (Hupper : t * ((2 * IZR hw - 1) * (1 - eps) / 2) - 1 / 2 <= IZR (hw - 1))
      by (rewrite minus_IZR; nra).
    assert (Hlower : IZR (- hw) <= t * ((2 * IZR hw - 1) * (1 - eps) / 2) - 1 / 2)
      by (rewrite opp_IZR; nra).
    apply round_half_even_le in Hupper.
    apply round_half_even_ge in Hlower.
    lia.
Qed.

(** One component of [quantize] on a finite input is the renormalised
    value of that digit. *)
Lemma quantize_fin (L : Z) (z : R) :
  (2 <= L < 9223372036854775808)%Z ->
  Dim.quantize (Fin eps) L (Fin z)
  = Dim.level_value L
      (round_half_even (Dim.bound_tan eps L z) + Dim.half_width L).
Proof.
  intros HL.
  pose proof (half_l_pos L HL) as Hh.
  pose proof (bound_digit L z HL) as Hd.
  unfold Dim.quantize.
  rewrite bound_fin by lra.
  rewrite round_ste_fin.
  rewrite level_value_fin by assumption.
  unfold of_int. rewrite fdiv_fin.
  - do 3 f_equal. lia.
  - apply not_0_IZR. pose proof (half_width_pos L ltac:(lia)). lia.
Qed.

End OneDimension.

(** A renormalised level lies in [-1, 1]. *)
Lemma level_value_range (L d : Z) :
  (2 <= L < 9223372036854775808)%Z -> (0 <= d < L)%Z ->
  exists r, Dim.level_value L d = Fin r /\ (-1 <= r <= 1)%R.
Proof.
  intros HL Hd. rewrite level_value_fin by assumption.
  eexists. split; [reflexivity|].
  pose proof (half_width_pos L ltac:(lia)) as Hhw.
  pose proof (Z.div_mod L 2 ltac:(lia)) as HLdiv.
  pose proof (Z.mod_pos_bound L 2 ltac:(lia)) as Hmod.
  fold (Dim.half_width L) in HLdiv.
  set (hw := Dim.half_width L) in *.
  assert (H1 : (1 <= IZR hw)%R) by (apply IZR_le; lia).
  assert (H2 : (IZR (- hw) <= IZR (d - hw) <= IZR hw)%R)
    by (split; apply IZR_le; lia).
  rewrite opp_IZR in H2.
  assert (Hinv : (0 < / IZR hw)%R) by (apply Rinv_0_lt_compat; lra).
  assert (Hone : (IZR hw * / IZR hw = 1)%R) by (field; lra).
  unfold Rdiv. split; nra.
Qed.

(** ** The array methods [bound] and [quantize] on a vector of the right
    length *)

Section Vectors.

Import NumPy.

Local Abbreviation zip f xs ys :=
  (map (fun p => f (fst p) (snd p)) (combine xs ys)).

Lemma bound_pipeline (eps : float) (levels : list Z) (z : list float) :
  let half_l :=
    map (fun L => fdiv (fmul (of_int (wrap_int64 (L - 1))) (fsub (Fin 1) eps))
                       (Fin 2))
        levels in
  let offset :=
    map (fun L => if (L mod 2 =? 1)%Z then Fin 0 else Fin (1 / 2)) levels in
  let shift := map ftan (zip fdiv offset half_l) in
  let s := zip fadd z shift in
  zip fsub (zip fmul (map ftanh s) half_l) offset
  = zip (Dim.bound eps) levels z.
Proof.
  cbv zeta. revert z.
  induction levels as [|L ls IH]; intros [|x z]; try reflexivity.
  cbn [map combine fst snd]. now rewrite IH.
Qed.

Lemma bound_vector (self : FSQ.t float) (z : list float) :
  FSQ._levels_np self = FSQ._levels self ->
  length z = length (FSQ._levels self) ->
  FSQ.bound self z
  = Ok (zip (Dim.bound (FSQ._eps self)) (FSQ._levels self) z).
Proof.
  intros Hnp Hlen. unfold FSQ.bound. rewrite Hnp.
  rewrite broadcast2_same_length by (now list_length).
  cbn [bind].
  rewrite broadcast2_same_length
    by (list_length; now rewrite Hlen, ?Nat.min_id).
  cbn [bind].
  rewrite broadcast2_same_length
    by (list_length; now rewrite Hlen, ?Nat.min_id).
  cbn [bind].
  rewrite broadcast2_same_length
    by (list_length; now rewrite Hlen, ?Nat.min_id).
  f_equal. apply bound_pipeline.
Qed.

Lemma quantize_pipeline (eps : float) (levels : list Z) (z : list float) :
  zip fdiv (round_ste (zip (Dim.bound eps) levels z))
      (map of_int (map (fun L => (L / 2)%Z) levels))
  = zip (Dim.quantize eps) levels z.
Proof.
  revert z. induction levels as [|L ls IH]; intros [|x z]; try reflexivity.
  cbn [map combine fst snd round_ste]. f_equal. apply IH.
Qed.

Lemma quantize_vector (self : FSQ.t float) (z : list float) :
  FSQ._levels_np self = FSQ._levels self ->
  length z = length (FSQ._levels self) ->
  FSQ.quantize self z
  = Ok (zip (Dim.quantize (FSQ._eps self)) (FSQ._levels self) z).
Proof.
  intros Hnp Hlen. unfold FSQ.quantize.
  rewrite bound_vector by assumption. cbn [bind]. rewrite Hnp.
  rewrite broadcast2_same_length
    by (unfold round_ste; list_length; now rewrite Hlen, ?Nat.min_id).
  f_equal. apply quantize_pipeline.
Qed.

Lemma quantized_digits_valid (eps : R) (levels : list Z) (z : list R) :
  (0 <= eps < 1)%R ->
  Forall (fun L => 2 <= L < 9223372036854775808)%Z levels ->
  length z = length levels ->
  Radix.valid_digits (quantized_digits eps levels z) levels.
Proof.
  intros Heps HL. revert z.
  induction HL as [|L ls HL1 HL2 IH]; intros [|x z] Hlen; simpl in Hlen;
    try discriminate.
  - exact I.
  - cbn [quantized_digits Radix.valid_digits]. split.
    + now apply bound_digit.
    + apply IH. lia.
Qed.

Lemma quantize_zip_codeword (eps : R) (levels : list Z) (z : list R) :
  (0 <= eps < 1)%R ->
  Forall (fun L => 2 <= L < 9223372036854775808)%Z levels ->
  length z = length levels ->
  zip (Dim.quantize (Fin eps)) levels (map Fin z)
  = Radix.codeword levels (quantized_digits eps levels z).
Proof.
  intros Heps HL. revert z.
  induction HL as [|L ls HL1 HL2 IH]; intros [|x z] Hlen; simpl in Hlen;
    try discriminate.
  - reflexivity.
  - cbn [map combine fst snd quantized_digits Radix.codeword].
    rewrite quantize_fin by assumption.
    f_equal. apply IH. lia.
Qed.

(** [quantize] of a finite vector is the codeword of that digit string. *)
Lemma quantize_codeword (self : FSQ.t float) (eps : R) (z : list R) :
  FSQ._levels_np self = FSQ._levels self ->
  FSQ._eps self = Fin eps -> (0 <= eps < 1)%R ->
  Forall (fun L => 2 <= L < 9223372036854775808)%Z (FSQ._levels self) ->
  length z = length (FSQ._levels self) ->
  FSQ.quantize self (map Fin z)
  = Ok (Radix.codeword (FSQ._levels self)
          (quantized_digits eps (FSQ._levels self) z)).
Proof.
  intros Hnp Heq Heps HL Hlen.
  rewrite quantize_vector by (now rewrite ?length_map).
  rewrite Heq. f_equal. now apply quantize_zip_codeword.
Qed.

End Vectors.

(** ** Evaluations at particular level counts *)

(** The value a single-level dimension decodes to: 0/0. *)
Lemma level_value_one : Dim.level_value 1 0 = NaN.
Proof. unfold Dim.level_value. simpl. apply fdiv_zero_zero. Qed.

(** A single-level dimension quantizes every input to NaN: [half_l] is 0,
    so the shift is the tangent of 0/0. *)
Lemma quantize_one (eps : R) (z : float) : Dim.quantize (Fin eps) 1 z = NaN.
Proof.
  assert (Hb : Dim.bound (Fin eps) 1 z = NaN).
  { unfold Dim.bound. rewrite half_l_eq, offset_eq.
    replace (Dim.half_l_R eps 1) with 0%R
      by (unfold Dim.half_l_R;
          change (NumPy.wrap_int64 (1 - 1)) with 0%Z; lra).
    replace (Dim.offset_R 1) with 0%R by reflexivity.
    rewrite fdiv_zero_zero. cbn [ftan]. now destruct z. }
  unfold Dim.quantize. now rewrite Hb.
Qed.

(** With 27 levels and the default [eps], the input -0.6 is bounded to a
    value between -7.5 and -6.5 and rounds to -7. *)
Lemma round_bound_27_levels :
  round_half_even (Dim.bound_tan (1 / 1000) 27 (- (3 / 5))) = (- 7)%Z.
Proof.
  apply round_half_even_near.
  unfold Dim.bound_tan.
  replace (Dim.half_l_R (1 / 1000) 27) with (12987 / 1000)%R
    by (unfold Dim.half_l_R;
        change (NumPy.wrap_int64 (27 - 1)) with 26%Z; lra).
  change (Dim.offset_R 27) with 0%R.
  replace (0 / (12987 / 1000))%R with 0%R by lra.
  rewrite tan_0. replace (- (3 / 5) + 0)%R with (- (3 / 5))%R by lra.
  pose proof tanh_minus_three_fifths. lra.
Qed.

(** The three components of the notebook's example,
    [levels = [3; 5; 4]] and [z = [0.25; 0.6; -7]]. *)

Section NotebookExample.

Local Open Scope R_scope.

Lemma round_bound_example_0 :
  round_half_even (Dim.bound_tan (1 / 1000) 3 (1 / 4)) = 0%Z.
Proof.
  apply round_half_even_near.
  unfold Dim.bound_tan.
  replace (Dim.half_l_R (1 / 1000) 3) with (999 / 1000)
    by (unfold Dim.half_l_R; change (NumPy.wrap_int64 (3 - 1)) with 2%Z; lra).
  change (Dim.offset_R 3) with 0.
  replace (0 / (999 / 1000)) with 0 by lra.
  rewrite tan_0. replace (1 / 4 + 0) with (1 / 4) by lra.
  pose proof tanh_quarter. lra.
Qed.

Lemma round_bound_example_1 :
  round_half_even (Dim.bound_tan (1 / 1000) 5 (3 / 5)) = 1%Z.
Proof.
  apply round_half_even_near.
  unfold Dim.bound_tan.
  replace (Dim.half_l_R (1 / 1000) 5) with (1998 / 1000)
    by (unfold Dim.half_l_R; change (NumPy.wrap_int64 (5 - 1)) with 4%Z; lra).
  change (Dim.offset_R 5) with 0.
  replace (0 / (1998 / 1000)) with 0 by lra.
  rewrite tan_0. replace (3 / 5 + 0) with (3 / 5) by lra.
  pose proof tanh_three_fifths. lra.
Qed.

Lemma round_bound_example_2 :
  round_half_even (Dim.bound_tan (1 / 1000) 4 (- 7)) = (- 2)%Z.
Proof.
  apply round_half_even_near.
  unfold Dim.bound_tan.
  replace (Dim.half_l_R (1 / 1000) 4) with (2997 / 2000)
    by (unfold Dim.half_l_R; change (NumPy.wrap_int64 (4 - 1)) with 3%Z; lra).
  change (Dim.offset_R 4) with (1 / 2).
  replace (1 / 2 / (2997 / 2000)) with (1000 / 2997) by lra.
  assert (Hs : 0 < tan (1000 / 2997) < 1).
  { pose proof PI2_3_2 as Hpi. split.
    - apply tan_gt_0; lra.
    - rewrite <- tan_PI4. apply tan_increasing; lra. }
  pose proof (tanh_increasing (- 7 + tan (1000 / 2997)) (- 6) ltac:(lra)) as Hlt.
  pose proof tanh_minus_six as H6.
  pose proof (tanh_bounds (- 7 + tan (1000 / 2997))) as [Hlo _].
  lra.
Qed.

End NotebookExample.

(** ** Broadcasting in [quantize] *)

Section Shapes.

Import NumPy.

(** A length-1 input is stretched to the number of dimensions. *)
Lemma quantize_stretch_input (self : FSQ.t float) (x : float) :
  FSQ._levels_np self = FSQ._levels self ->
  exists c, FSQ.quantize self [x] = Ok c /\
            length c = FSQ.num_dimensions self.
Proof.
  intros Hnp. unfold FSQ.quantize, FSQ.bound, FSQ.num_dimensions.
  rewrite Hnp.
  rewrite broadcast2_same_length by (now list_length).
  cbn [bind]. rewrite broadcast2_stretch_left. cbn [bind].
  rewrite broadcast2_same_length by (now list_length; rewrite Nat.min_id).
  cbn [bind].
  rewrite broadcast2_same_length by (now list_length; rewrite !Nat.min_id).
  cbn [bind].
  rewrite broadcast2_same_length
    by (unfold round_ste; now list_length; rewrite !Nat.min_id).
  eexists. split; [reflexivity|].
  unfold round_ste. list_length. now rewrite !Nat.min_id.
Qed.

(** With a single dimension, an input of any length is quantized
    component by component. *)
Lemma quantize_stretch_levels (self : FSQ.t float) (L : Z) (z : list float) :
  FSQ._levels_np self = [L] ->
  exists c, FSQ.quantize self z = Ok c /\ length c = length z.
Proof.
  intros Hnp. unfold FSQ.quantize, FSQ.bound. rewrite Hnp.
  cbn [map]. rewrite broadcast2_same_length by reflexivity.
  cbn [bind map combine]. rewrite broadcast2_stretch_right.
  cbn [bind]. rewrite broadcast2_stretch_right.
  cbn [bind]. rewrite broadcast2_stretch_right.
  cbn [bind]. rewrite broadcast2_stretch_right.
  eexists. split; [reflexivity|].
  unfold round_ste. now list_length.
Qed.

(** Any other length mismatch is a shape error, raised by [z + shift]. *)
Lemma quantize_mismatch (self : FSQ.t float) (z : list float) :
  length z <> length (FSQ._levels_np self) ->
  length z <> 1%nat -> length (FSQ._levels_np self) <> 1%nat ->
  FSQ.quantize self z = Raise BroadcastError.
Proof.
  intros Hne Hz Hn. unfold FSQ.quantize, FSQ.bound.
  rewrite broadcast2_same_length by (now list_length).
  cbn [bind].
  rewrite broadcast2_mismatch by (list_length; now rewrite ?Nat.min_id).
  reflexivity.
Qed.

(** With the right length [codes_to_indexes] raises nothing. *)
Lemma codes_to_indexes_ok (self : FSQ.t float) (zhat : list float) :
  constructed self -> length zhat = FSQ.num_dimensions self ->
  exists r, FSQ.codes_to_indexes self zhat = Ok r.
Proof.
  intros [Hnp Hbasis] Hlen.
  unfold FSQ.codes_to_indexes, FSQ._scale_and_shift.
  rewrite Hlen, Nat.eqb_refl, Hnp.
  unfold FSQ.num_dimensions in Hlen.
  rewrite broadcast2_same_length by (list_length; now rewrite Hlen).
  cbn [bind].
  rewrite broadcast2_same_length
    by (list_length; now rewrite Hlen, ?Nat.min_id).
  cbn [bind].
  destruct (FSQ._levels self) as [|L ls] eqn:Hlev.
  - rewrite Hbasis.
    cbn [basis_of removelast cumprod cumprod_from map].
    rewrite broadcast2_stretch_right. cbn [bind]. now eexists.
  - rewrite broadcast2_same_length.
    + cbn [bind]. now eexists.
    + list_length. rewrite Hlen, !Nat.min_id, Hbasis.
      symmetry. apply length_basis_of. discriminate.
Qed.

End Shapes.

(** ** [np.arange] *)

Lemma arange_length (n : Z) : length (NumPy.arange n) = Z.to_nat n.
Proof. unfold NumPy.arange. now rewrite length_map, length_seq. Qed.

Lemma arange_nth (n k : Z) :
  (0 <= k < n)%Z -> nth_error (NumPy.arange n) (Z.to_nat k) = Some k.
Proof.
  intros Hk. unfold NumPy.arange.
  rewrite nth_error_map, nth_error_seq.
  destruct (Nat.ltb_spec (Z.to_nat k) (Z.to_nat n)) as [_ | Hge]; [|lia].
  cbn [option_map]. f_equal. lia.
Qed.

(** Membership in an integer range. *)
Lemma in_arange (n k : Z) : (0 <= k < n)%Z -> In k (NumPy.arange n).
Proof.
  intros Hk. unfold NumPy.arange. apply in_map_iff.
  exists (Z.to_nat k). split; [lia|]. apply in_seq. lia.
Qed.

Lemma in_range_from (a : nat) (n : nat) (k : Z) :
  (Z.of_nat a <= k < Z.of_nat (a + n))%Z -> In k (map Z.of_nat (seq a n)).
Proof.
  intros Hk. apply in_map_iff.
  exists (Z.to_nat k). split; [lia|]. apply in_seq. lia.
Qed.

(** ** More on rounding and the hyperbolic tangent *)

Section Rounding.

Local Open Scope R_scope.

(** The rounded value is within one half of the argument. *)
Lemma round_half_even_bounds (r : R) :
  - (1 / 2) <= r - IZR (round_half_even r) <= 1 / 2.
Proof.
  pose proof (Zfloor_bound r) as [Hlo Hhi].
  unfold round_half_even.
  destruct (total_order_T (r - IZR (Zfloor r)) (1 / 2)) as [[Hlt | Heq] | Hgt].
  - lra.
  - destruct (Z.even (Zfloor r)); [lra | rewrite plus_IZR; lra].
  - rewrite plus_IZR. lra.
Qed.

(** At a tie the rounded value is even. *)
Lemma round_half_even_tie (r : R) :
  Rabs (r - IZR (round_half_even r)) = 1 / 2 ->
  Z.even (round_half_even r) = true.
Proof.
  pose proof (Zfloor_bound r) as [Hlo Hhi].
  unfold round_half_even.
  destruct (total_order_T (r - IZR (Zfloor r)) (1 / 2)) as [[Hlt | Heq] | Hgt].
  - intros Habs. rewrite Rabs_pos_eq in Habs by lra. lra.
  - destruct (Z.even (Zfloor r)) eqn:He; intros _; [exact He|].
    rewrite Z.even_add, He. reflexivity.
  - rewrite plus_IZR. intros Habs.
    rewrite Rabs_left1 in Habs by lra. lra.
Qed.

(** These two properties determine the rounded value. *)
Lemma round_half_even_unique (r : R) (m : Z) :
  - (1 / 2) <= r - IZR m <= 1 / 2 ->
  (Rabs (r - IZR m) = 1 / 2 -> Z.even m = true) ->
  round_half_even r = m.
Proof.
  intros Hm Hev.
  pose proof (round_half_even_bounds r) as Hb.
  pose proof (round_half_even_tie r) as Ht.
  set (k := round_half_even r) in *.
  assert (Hdiff : -1 <= IZR (k - m) <= 1) by (rewrite minus_IZR; lra).
  assert (Hk : (-1 <= k - m <= 1)%Z).
  { split; [apply le_IZR | apply le_IZR]; lra. }
  destruct (Z.eq_dec k m) as [|Hne]; [assumption|].
  exfalso.
  assert (Hcase : (k = m + 1 \/ k = m - 1)%Z) by lia.
  destruct Hcase as [-> | ->].
  - rewrite plus_IZR in *.
    assert (E1 : r - IZR m = 1 / 2) by lra.
    assert (E2 : r - (IZR m + 1) = - (1 / 2)) by lra.
    rewrite E2 in Ht. rewrite E1 in Hev.
    rewrite Rabs_left in Ht by lra. rewrite Rabs_pos_eq in Hev by lra.
    specialize (Ht ltac:(lra)). specialize (Hev eq_refl).
    rewrite Z.even_add in Ht. rewrite Hev in Ht. discriminate.
  - rewrite minus_IZR in *.
    assert (E1 : r - IZR m = - (1 / 2)) by lra.
    assert (E2 : r - (IZR m - 1) = 1 / 2) by lra.
    rewrite E2 in Ht. rewrite E1 in Hev.
    rewrite Rabs_pos_eq in Ht by lra. rewrite Rabs_left in Hev by lra.
    specialize (Ht eq_refl). specialize (Hev ltac:(lra)).
    rewrite Z.even_sub in Ht. rewrite Hev in Ht. discriminate.
Qed.

(** Rounding is monotone. *)
Lemma round_half_even_mono (r r' : R) :
  r <= r' -> (round_half_even r <= round_half_even r')%Z.
Proof.
  intros Hle.
  destruct (Req_dec r r') as [-> | Hne]; [lia|].
  pose proof (round_half_even_bounds r) as Hb.
  pose proof (round_half_even_bounds r') as Hb'.
  set (k := round_half_even r) in *. set (k' := round_half_even r') in *.
  assert (Hlt : IZR (k - k') < 1) by (rewrite minus_IZR; lra).
  apply lt_IZR in Hlt. lia.
Qed.

(** Rounding half to even is an odd function. *)
Lemma round_half_even_opp (r : R) :
  round_half_even (- r) = (- round_half_even r)%Z.
Proof.
  pose proof (round_half_even_bounds r) as Hb.
  pose proof (round_half_even_tie r) as Ht.
  apply round_half_even_unique.
  - rewrite opp_IZR. lra.
  - rewrite opp_IZR. intros Habs.
    rewrite Z.even_opp. apply Ht.
    replace (r - IZR (round_half_even r))
      with (- (- r - - IZR (round_half_even r))) by ring.
    now rewrite Rabs_Ropp.
Qed.

Lemma tanh_opp (x : R) : tanh (- x) = - tanh x.
Proof.
  unfold tanh, sinh, cosh. rewrite Ropp_involutive.
  pose proof (exp_pos x). pose proof (exp_pos (- x)).
  field. lra.
Qed.

Lemma tanh_monotone (x y : R) : x <= y -> tanh x <= tanh y.
Proof.
  intros [Hlt | ->]; [|lra].
  left. now apply tanh_increasing.
Qed.


End Rounding.

(** ** Which digits [quantize] selects in one dimension *)

Section Reach.

Local Open Scope R_scope.

Variable eps : R.
Variable L : Z.
Hypothesis HL : (2 <= L < 9223372036854775808)%Z.

(** [half_l] and [offset] in terms of the half-width. *)
Lemma half_l_offset_cases :
  Dim.half_l_R eps L = IZR (L - 1) * (1 - eps) / 2 /\
  1 <= IZR (L - 1) /\
  ((Dim.offset_R L = 0 /\ IZR (L - 1) = 2 * IZR (Dim.half_width L) /\
    L = (2 * Dim.half_width L + 1)%Z) \/
   (Dim.offset_R L = 1 / 2 /\ IZR (L - 1) = 2 * IZR (Dim.half_width L) - 1 /\
    L = (2 * Dim.half_width L)%Z)).
Proof.
  split; [|split].
  - unfold Dim.half_l_R. now rewrite wrap_int64_small by lia.
  - apply IZR_le. lia.
  - pose proof (Z.div_mod L 2 ltac:(lia)) as Hdiv.
    pose proof (Z.mod_pos_bound L 2 ltac:(lia)) as Hmod.
    fold (Dim.half_width L) in Hdiv.
    unfold Dim.offset_R.
    destruct (Z.eqb_spec (L mod 2) 1) as [Hodd | Heven].
    + left. split; [reflexivity|]. split; [|lia].
      rewrite <- mult_IZR. f_equal. lia.
    + right. split; [reflexivity|]. split; [|lia].
      replace (L - 1)%Z with (2 * Dim.half_width L - 1)%Z at 1 by lia.
      now rewrite minus_IZR, mult_IZR.
Qed.

(** [bound] is monotone in its input. *)
Lemma bound_tan_monotone (z z' : R) :
  0 <= eps < 1 -> z <= z' -> Dim.bound_tan eps L z <= Dim.bound_tan eps L z'.
Proof.
  intros Heps Hz.
  pose proof (half_l_pos eps Heps L HL) as Hh.
  unfold Dim.bound_tan.
  set (s := tan _).
  pose proof (tanh_monotone (z + s) (z' + s) ltac:(lra)).
  nra.
Qed.

(** The digit [quantize] selects is monotone in the input. *)
Lemma quantized_digit_monotone (z z' : R) :
  0 <= eps < 1 -> z <= z' ->
  (round_half_even (Dim.bound_tan eps L z)
   <= round_half_even (Dim.bound_tan eps L z'))%Z.
Proof.
  intros Heps Hz. apply round_half_even_mono. now apply bound_tan_monotone.
Qed.


End Reach.

(** ** Level counts whose first and last digits are never selected *)

Section Inner.

Local Open Scope R_scope.

Variable eps : R.
Variable L : Z.
Hypothesis HL : (2 <= L < 9223372036854775808)%Z.
Hypothesis Heps : 0 <= eps < 1.




End Inner.

(** ** Which digit strings [quantize] selects *)

Section DigitStrings.

Local Open Scope R_scope.

Variable eps : R.

(** The codeword of a valid digit string, as real numbers. *)
Lemma codeword_fin (levels ds : list Z) :
  Forall (fun L => 2 <= L < 9223372036854775808)%Z levels ->
  Radix.valid_digits ds levels ->
  Radix.codeword levels ds
  = map (fun p => Fin (IZR (snd p - Dim.half_width (fst p))
                       / IZR (Dim.half_width (fst p))))
        (combine levels ds).
Proof.
  intros HL. revert ds.
  induction HL as [|L ls HL1 HL2 IH]; intros [|d ds] Hv; simpl in Hv;
    try contradiction; [reflexivity|].
  destruct Hv as [Hd Hv].
  cbn [Radix.codeword combine map fst snd].
  rewrite level_value_fin by assumption. f_equal. now apply IH.
Qed.

Lemma quantized_digits_monotone (levels : list Z) (z z' : list R) :
  0 <= eps < 1 ->
  Forall (fun L => 2 <= L < 9223372036854775808)%Z levels ->
  length z = length levels -> Forall2 Rle z z' ->
  Forall2 Z.le (quantized_digits eps levels z) (quantized_digits eps levels z').
Proof.
  intros Heps HL Hlen Hz. revert levels HL Hlen.
  induction Hz as [|x x' z z' Hx Hz IH]; intros [|L ls] HL Hlen;
    simpl in Hlen; try discriminate; [constructor|].
  inversion HL as [|? ? HL1 HL2]; subst.
  cbn [quantized_digits]. constructor.
  - pose proof (quantized_digit_monotone eps L HL1 x x' Heps Hx). lia.
  - apply IH; [assumption | lia].
Qed.

(** The levels of a dimension increase with the digit. *)
Lemma codeword_monotone (levels ds ds' : list Z) :
  Forall (fun L => 2 <= L < 9223372036854775808)%Z levels ->
  Radix.valid_digits ds levels -> Radix.valid_digits ds' levels ->
  Forall2 Z.le ds ds' ->
  exists c c', Radix.codeword levels ds = map Fin c /\
               Radix.codeword levels ds' = map Fin c' /\
               Forall2 Rle c c'.
Proof.
  intros HL. revert ds ds'.
  induction HL as [|L ls HL1 HL2 IH]; intros ds ds' Hv Hv' Hle.
  - destruct ds, ds'; simpl in Hv, Hv'; try contradiction.
    exists [], []. repeat split; constructor.
  - destruct ds as [|d ds], ds' as [|d' ds']; simpl in Hv, Hv';
      try contradiction.
    destruct Hv as [Hd Hv]. destruct Hv' as [Hd' Hv'].
    inversion Hle as [|? ? ? ? Hdd Hrest]; subst.
    destruct (IH ds ds' Hv Hv' Hrest) as (c & c' & Hc & Hc' & Hcc).
    exists (IZR (d - Dim.half_width L) / IZR (Dim.half_width L) :: c),
           (IZR (d' - Dim.half_width L) / IZR (Dim.half_width L) :: c').
    cbn [Radix.codeword map]. rewrite Hc, Hc', !level_value_fin by assumption.
    repeat split. constructor; [|assumption].
    pose proof (half_width_pos L ltac:(lia)) as Hhw.
    assert (H1 : 1 <= IZR (Dim.half_width L)) by (apply IZR_le; lia).
    assert (H2 : IZR (d - Dim.half_width L) <= IZR (d' - Dim.half_width L))
      by (apply IZR_le; lia).
    apply Rmult_le_compat_r; [|assumption].
    left. apply Rinv_0_lt_compat. lra.
Qed.




End DigitStrings.


(** ** NaN and infinite inputs of [quantize] *)

Section SpecialValues.

Local Open Scope R_scope.

Variable eps : R.
Variable L : Z.


Hypothesis HL : (2 <= L < 9223372036854775808)%Z.
Hypothesis Heps0 : 0 <= eps.
Hypothesis Heps : eps * IZR (L - 1) < 1.






End SpecialValues.

(** ** Distinct indices have distinct codewords *)

Section Codebook.

Lemma arange_in (n k : Z) : In k (NumPy.arange n) -> (0 <= k < n)%Z.
Proof.
  unfold NumPy.arange. rewrite in_map_iff.
  intros (i & <- & Hi). apply in_seq in Hi. lia.
Qed.

Lemma arange_NoDup (n : Z) : NoDup (NumPy.arange n).
Proof.
  unfold NumPy.arange.
  apply NoDup_map_NoDup_ForallPairs; [|apply seq_NoDup].
  intros i j _ _ Hij. lia.
Qed.

(** Distinct digits of a dimension have distinct levels. *)
Lemma codeword_injective (levels ds ds' : list Z) :
  Forall (fun L => 2 <= L < 9223372036854775808)%Z levels ->
  Radix.valid_digits ds levels -> Radix.valid_digits ds' levels ->
  Radix.codeword (F := float) levels ds = Radix.codeword levels ds' ->
  ds = ds'.
Proof.
  intros HL. revert ds ds'.
  induction HL as [|L ls HL1 HL2 IH]; intros [|d ds] [|d' ds'] Hv Hv' Heq;
    simpl in Hv, Hv'; try contradiction; [reflexivity|].
  destruct Hv as [Hd Hv]. destruct Hv' as [Hd' Hv'].
  cbn [Radix.codeword] in Heq.
  rewrite !level_value_fin in Heq by assumption.
  injection Heq as Hlevel Hrest.
  pose proof (half_width_pos L ltac:(lia)) as Hhw.
  assert (Hh : (1 <= IZR (Dim.half_width L))%R) by (apply IZR_le; lia).
  assert (E : IZR (d - Dim.half_width L) = IZR (d' - Dim.half_width L)).
  { apply Rmult_eq_reg_r with (/ IZR (Dim.half_width L))%R; [exact Hlevel|].
    apply Rinv_neq_0_compat. lra. }
  apply eq_IZR in E. f_equal; [lia|]. now apply IH.
Qed.

(** The digits of an index below the product determine the index. *)
Lemma digits_injective (levels : list Z) (i j : Z) :
  Forall (fun L => 1 <= L)%Z levels ->
  (0 <= i < Radix.product levels)%Z -> (0 <= j < Radix.product levels)%Z ->
  Radix.digits i (Radix.places 1 levels) levels
  = Radix.digits j (Radix.places 1 levels) levels ->
  i = j.
Proof.
  intros Hpos Hi Hj Heq.
  pose proof (value_digits levels Hpos 1 i ltac:(lia)) as Vi.
  pose proof (value_digits levels Hpos 1 j ltac:(lia)) as Vj.
  rewrite Heq, Vj in Vi.
  rewrite !Z.div_1_r, !Z.mul_1_l, !Z.mod_small in Vi by lia.
  now symmetry.
Qed.

End Codebook.

(** ** [_scale_and_shift] and [_scale_and_shift_inverse] *)

Section Helpers.

Import NumPy.

(** The zipped array pipeline of [_scale_and_shift_inverse] on a digit
    string is its codeword, in every arithmetic. *)
Lemma inverse_pipeline {F : Type} {D : Dtype F} (ls ds : list Z) :
  length ds = length ls ->
  let hw := map (fun L => (L / 2)%Z) ls in
  map (fun p => true_divide (from_int (fst p)) (from_int (snd p)))
      (combine (map (fun p => wrap_int64 (fst p - snd p)) (combine ds hw)) hw)
  = Radix.codeword ls ds.
Proof.
  cbv zeta. revert ds.
  induction ls as [|L ls IH]; intros [|d ds] Hlen; simpl in Hlen;
    try discriminate; [reflexivity|].
  cbn [map combine fst snd Radix.codeword].
  rewrite IH by lia. reflexivity.
Qed.

Lemma scale_and_shift_inverse_codeword {F : Type} {D : Dtype F}
    (self : FSQ.t F) (ds : list Z) :
  FSQ._levels_np self = FSQ._levels self ->
  length ds = length (FSQ._levels self) ->
  FSQ._scale_and_shift_inverse self ds
  = Ok (Radix.codeword (FSQ._levels self) ds).
Proof.
  intros Hnp Hlen. unfold FSQ._scale_and_shift_inverse. rewrite Hnp.
  rewrite broadcast2_same_length by (list_length; exact Hlen).
  cbn [bind].
  rewrite broadcast2_same_length
    by (list_length; now rewrite Hlen, ?Nat.min_id).
  f_equal. now apply inverse_pipeline.
Qed.

(** The zipped array pipeline of [_scale_and_shift] on the codeword of a
    valid digit string, in exact arithmetic. *)
Lemma scale_pipeline (levels ds : list Z) :
  Forall (fun L => 2 <= L < 9223372036854775808)%Z levels ->
  Radix.valid_digits ds levels ->
  let hw := map of_int (map (fun L => (L / 2)%Z) levels) in
  map (fun p => fadd (fst p) (snd p))
      (combine (map (fun p => fmul (fst p) (snd p))
                    (combine (Radix.codeword levels ds) hw)) hw)
  = map of_int ds.
Proof.
  cbv zeta. intros HL. revert ds.
  induction HL as [|L ls HL1 HL2 IH]; intros [|d ds] Hv; simpl in Hv;
    try contradiction; [reflexivity|].
  destruct Hv as [Hd Hv].
  cbn [Radix.codeword map combine fst snd].
  change (fadd (fmul (Dim.level_value L d) (of_int (L / 2))) (of_int (L / 2)))
    with (Dim.scale_and_shift L (Dim.level_value L d)).
  rewrite scale_and_shift_level by assumption.
  f_equal. now apply IH.
Qed.

Lemma fadd_nan_r (x : float) : fadd x NaN = NaN.
Proof. now destruct x. Qed.

Lemma fold_fadd_nan (l : list float) : fold_left fadd l NaN = NaN.
Proof. induction l as [|x l IH]; [reflexivity | exact IH]. Qed.

(** A NaN component makes the sum of [codes_to_indexes] NaN. *)
Lemma encode_pipeline_nan (zhat hw bs : list float) (acc : float) :
  length hw = length zhat -> length bs = length zhat -> In NaN zhat ->
  fold_left fadd
    (map (fun p => fmul (fst p) (snd p))
       (combine (map (fun p => fadd (fst p) (snd p))
                   (combine (map (fun p => fmul (fst p) (snd p))
                               (combine zhat hw)) hw)) bs)) acc
  = NaN.
Proof.
  revert hw bs acc.
  induction zhat as [|x zhat IH]; intros [|h hw] [|b bs] acc Hhw Hbs Hin;
    simpl in Hhw, Hbs; try discriminate; [contradiction|].
  cbn [combine map fst snd fold_left].
  destruct Hin as [-> | Hin].
  - cbn [fmul fadd]. rewrite fadd_nan_r. apply fold_fadd_nan.
  - apply IH; [lia | lia | assumption].
Qed.

End Helpers.

(** ** Odd level counts *)

Section OddLevels.

Local Open Scope R_scope.

Variable eps : R.
Hypothesis Heps : 0 <= eps < 1.
Variable L : Z.
Hypothesis HL : (2 <= L < 9223372036854775808)%Z.
Hypothesis Hodd : Z.odd L = true.

Lemma offset_odd : Dim.offset_R L = 0.
Proof.
  unfold Dim.offset_R.
  replace (L mod 2 =? 1)%Z with (Z.odd L) by (now rewrite Zodd_mod).
  now rewrite Hodd.
Qed.

(** With an odd number of levels [bound] is an odd function. *)
Lemma bound_tan_opp (x : R) :
  Dim.bound_tan eps L (- x) = - Dim.bound_tan eps L x.
Proof.
  unfold Dim.bound_tan. rewrite offset_odd.
  replace (0 / Dim.half_l_R eps L) with 0 by (unfold Rdiv; ring).
  rewrite tan_0.
  replace (- x + 0) with (- (x + 0)) by ring.
  rewrite tanh_opp. ring.
Qed.

Lemma quantize_opp (x : R) :
  Dim.quantize (Fin eps) L (Fin (- x))
  = fopp (Dim.quantize (Fin eps) L (Fin x)).
Proof.
  pose proof (bound_digit eps Heps L x HL) as Hd.
  pose proof (bound_digit eps Heps L (- x) HL) as Hd'.
  pose proof (half_width_pos L ltac:(lia)) as Hhw.
  rewrite !quantize_fin by assumption.
  rewrite !level_value_fin by assumption.
  rewrite bound_tan_opp, round_half_even_opp.
  cbn [fopp]. f_equal.
  replace (- round_half_even (Dim.bound_tan eps L x) + Dim.half_width L
           - Dim.half_width L)%Z
    with (- (round_half_even (Dim.bound_tan eps L x) + Dim.half_width L
             - Dim.half_width L))%Z by lia.
  rewrite opp_IZR. field. apply not_0_IZR. lia.
Qed.

End OddLevels.

(** Bounds on [tan] and [tanh] near zero. *)

Section NearZero.

Local Open Scope R_scope.

Lemma tan_lt_8_7 (x : R) : 0 < x < 1 / 2 -> tan x < 8 / 7 * x.
Proof.
  intros Hx.
  assert (Hc : 1 - x ^ 2 / 2 <= cos x).
  { destruct (pre_cos_bound x 0) as [Hlb _];
      [pose proof PI2_1; lra | pose proof PI2_1; lra |].
    revert Hlb. unfold cos_approx, cos_term. simpl. intros Hlb.
    eapply Rle_trans; [|exact Hlb]. apply Req_le. field. }
  pose proof (sin_lt_x x ltac:(lra)) as Hs.
  assert (Hcos : 7 / 8 <= cos x) by nra.
  unfold tan.
  apply Rmult_lt_reg_r with (cos x); [lra|].
  unfold Rdiv. rewrite Rmult_assoc, Rinv_l by lra. nra.
Qed.

Lemma tanh_le_7_4 (u : R) : 0 < u < 1 -> tanh u <= 7 / 4 * u.
Proof.
  intros Hu.
  destruct (tanh_exp u) as (a & b & Ha & Hb & Hab & Hla & Hlb & Ht).
  set (t := tanh u) in *.
  assert (Hb1 : 0 < 1 - u) by lra.
  assert (Ha1 : a * (1 - u) <= 1) by nra.
  assert (Ha0 : 0 <= a * (1 - u)) by nra.
  assert (Ha2 : a * a * ((1 - u) * (1 - u)) <= 1).
  { replace (a * a * ((1 - u) * (1 - u)))
      with ((a * (1 - u)) * (a * (1 - u))) by ring.
    set (w := a * (1 - u)) in *. nra. }
  assert (Hpoly : 1 - 7 / 4 * u
                  <= (1 + 7 / 4 * u) * ((1 - u) * (1 - u))).
  { assert (0 <= u * (3 / 2 - 5 / 2 * u + 7 / 4 * (u * u))) by nra.
    nra. }
  assert (Hmain : a * a * (1 - 7 / 4 * u) <= 1 + 7 / 4 * u).
  { destruct (Rle_dec (1 - 7 / 4 * u) 0) as [Hneg | Hposi]; [nra|].
    assert (a * a * (1 - 7 / 4 * u)
            <= a * a * ((1 + 7 / 4 * u) * ((1 - u) * (1 - u)))) by nra.
    nra. }
  assert (Hab' : a * (1 - 7 / 4 * u) <= b * (1 + 7 / 4 * u)).
  { apply Rmult_le_reg_l with a; [assumption|].
    replace (a * (b * (1 + 7 / 4 * u))) with (a * b * (1 + 7 / 4 * u))
      by ring.
    rewrite Hab. nra. }
  assert (Hsum : 0 < a + b) by lra.
  apply Rmult_le_reg_r with (a + b); [assumption|].
  rewrite Ht. nra.
Qed.

End NearZero.

(** ** The input 0 *)

Section Zero.

Local Open Scope R_scope.

Variable eps : R.
Hypothesis Heps : 0 <= eps <= 1 / 3.
Variable L : Z.
Hypothesis HL : (2 <= L < 9223372036854775808)%Z.

(** The input 0 is bounded to a value that rounds to 0: exactly 0 for an
    odd number of levels, and within one half of it for an even one, where
    the shift is the tangent of [offset / half_l]. *)
Lemma round_bound_zero : round_half_even (Dim.bound_tan eps L 0) = 0%Z.
Proof.
  destruct (half_l_offset_cases eps L HL) as (Hh & HL1 & Hcases).
  apply round_half_even_near.
  unfold Dim.bound_tan.
  set (n := IZR (L - 1)) in *.
  assert (HH : 1 / 3 <= Dim.half_l_R eps L) by (rewrite Hh; nra).
  set (H := Dim.half_l_R eps L) in *.
  destruct Hcases as [(-> & _ & _) | (-> & _ & _)].
  - replace (0 / H) with 0 by (unfold Rdiv; ring).
    rewrite tan_0, Rplus_0_l, tanh_0. simpl. lra.
  - set (x := 1 / 2 / H).
    assert (HxH : x * H = 1 / 2) by (unfold x; field; lra).
    assert (Hx : 0 < x <= 3 / 2).
    { split.
      - unfold x. apply Rdiv_lt_0_compat; lra.
      - apply Rmult_le_reg_r with H; [lra|]. rewrite HxH. nra. }
    assert (Htan : 0 < tan x).
    { apply tan_gt_0; [lra|]. pose proof PI2_3_2. lra. }
    rewrite Rplus_0_l.
    pose proof (tanh_increasing 0 (tan x) Htan) as Hpos. rewrite tanh_0 in Hpos.
    pose proof (tanh_bounds (tan x)) as [_ Hlt1].
    assert (Hup : tanh (tan x) * H < 1).
    { destruct (Rle_dec H 1) as [Hsmall | Hbig]; [nra|].
      assert (Hx' : 0 < x < 1 / 2).
      { split; [lra|].
        apply Rmult_lt_reg_r with H; [lra|]. rewrite HxH. nra. }
      pose proof (tan_lt_8_7 x Hx') as Ht1.
      pose proof (tanh_le_7_4 (tan x) ltac:(lra)) as Ht2.
      assert (Hth : tanh (tan x) < 2 * x) by lra.
      nra. }
    set (t := tanh (tan x)) in *.
    assert (0 < t * H) by nra.
    simpl. lra.
Qed.

Lemma quantize_zero : Dim.quantize (Fin eps) L (Fin 0) = Fin 0.
Proof.
  pose proof (half_width_pos L ltac:(lia)) as Hhw.
  pose proof (half_width_le L ltac:(lia)) as Hhw'.
  rewrite quantize_fin by (lra || assumption).
  rewrite round_bound_zero, level_value_fin by lia.
  f_equal. replace (0 + Dim.half_width L - Dim.half_width L)%Z with 0%Z by lia.
  unfold Rdiv. ring.
Qed.

End Zero.

(** ** The first and the last index *)

Section Corners.

Local Open Scope Z_scope.





End Corners.

(** ** Levels that float32 and float64 share *)

Section Widening.

(** With 3, 4 or 5 levels the half-width is 1 or 2, and the float32 level
    of a digit is exactly its float64 level. *)
Lemma level_value_widen (L d : Z) :
  In L [3; 4; 5]%Z -> (0 <= d < L)%Z ->
  Dim.level_value (D := IEEE.float64) L d
  = IEEE.astype IEEE.binary64 (Dim.level_value (D := IEEE.float32) L d).
Proof.
  intros HL Hd.
  destruct HL as [<- | [<- | [<- | []]]].
  - assert (Hc : (d = 0 \/ d = 1 \/ d = 2)%Z) by lia.
    destruct Hc as [-> | [-> | ->]]; now vm_compute.
  - assert (Hc : (d = 0 \/ d = 1 \/ d = 2 \/ d = 3)%Z) by lia.
    destruct Hc as [-> | [-> | [-> | ->]]]; now vm_compute.
  - assert (Hc : (d = 0 \/ d = 1 \/ d = 2 \/ d = 3 \/ d = 4)%Z) by lia.
    destruct Hc as [-> | [-> | [-> | [-> | ->]]]]; now vm_compute.
Qed.

Lemma codeword_widen (levels ds : list Z) :
  Forall (fun L => In L [3; 4; 5]%Z) levels ->
  Radix.valid_digits ds levels ->
  Radix.codeword (D := IEEE.float64) levels ds
  = map (IEEE.astype IEEE.binary64)
        (Radix.codeword (D := IEEE.float32) levels ds).
Proof.
  intros HL. revert ds.
  induction HL as [|L ls HL1 HL2 IH]; intros [|d ds] Hv; simpl in Hv;
    try contradiction; [reflexivity|].
  destruct Hv as [Hd Hv].
  cbn [Radix.codeword map].
  rewrite level_value_widen by assumption. f_equal. now apply IH.
Qed.

End Widening.

(** ** [quantize] and the nearest level *)

Section Nearest.

Local Open Scope R_scope.

(** No integer is nearer to a real number than its rounded value. *)
Lemma round_half_even_nearest (r : R) (m : Z) :
  Rabs (IZR (round_half_even r) - r) <= Rabs (IZR m - r).
Proof.
  pose proof (round_half_even_bounds r) as Hb.
  set (k := round_half_even r) in *.
  destruct (Z.eq_dec m k) as [-> | Hne]; [lra|].
  assert (Hk : Rabs (IZR k - r) <= 1 / 2) by (apply Rabs_le; lra).
  assert (Hm : 1 / 2 <= Rabs (IZR m - r)).
  { destruct (Z_lt_le_dec m k) as [Hlt | Hge].
    - assert (IZR m <= IZR k - 1)
        by (rewrite <- minus_IZR; apply IZR_le; lia).
      rewrite Rabs_left1 by lra. lra.
    - assert (IZR k + 1 <= IZR m)
        by (rewrite <- plus_IZR; apply IZR_le; lia).
      rewrite Rabs_pos_eq by lra. lra. }
  lra.
Qed.

Variable eps : R.
Hypothesis Heps : 0 <= eps < 1.
Variable L : Z.
Hypothesis HL : (2 <= L < 9223372036854775808)%Z.

(** One component of [quantize] is the level of a digit whose integer is
    nearest to the same component of [bound]. *)
Lemma quantize_bound_nearest_level (x : R) :
  exists b k,
    Dim.bound (Fin eps) L (Fin x) = Fin b /\
    (0 <= k < L)%Z /\
    Dim.quantize (Fin eps) L (Fin x)
    = Fin (IZR (k - Dim.half_width L) / IZR (Dim.half_width L)) /\
    forall d : Z,
      Rabs (IZR (k - Dim.half_width L) - b)
      <= Rabs (IZR (d - Dim.half_width L) - b).
Proof.
  pose proof (half_l_pos eps Heps L HL) as Hh.
  pose proof (bound_digit eps Heps L x HL) as Hd.
  exists (Dim.bound_tan eps L x),
         (round_half_even (Dim.bound_tan eps L x) + Dim.half_width L)%Z.
  split; [apply bound_fin; lra|]. split; [exact Hd|]. split.
  - rewrite quantize_fin, level_value_fin by assumption. reflexivity.
  - intros d.
    replace (round_half_even (Dim.bound_tan eps L x) + Dim.half_width L
             - Dim.half_width L)%Z
      with (round_half_even (Dim.bound_tan eps L x)) by lia.
    apply round_half_even_nearest.
Qed.

End Nearest.

(** * Claims *)

(** ** C1: decoding an index and encoding the result *)

(** C1 at its failing inputs, in float64, the arithmetic in which numpy
    evaluates both methods.
    - [levels = [50]], index 11: the decoded level (11 - 25) / 25 = -0.56
      is rounded by float64; scaling it back gives 10.999999999999998, and
      the cast to uint32 truncates that to 10.
    - [levels = [1; 3]], index 1: the single-level dimension decodes to
      0/0 = NaN, and the encoding is the undefined conversion of NaN.
    - [levels = [65536; 65536; 2]] (product 2^33): the stored basis is
      [1; 65536; 0], and the codeword of index 2^32 encodes to 0. *)
Theorem index_roundtrip_float64 :
  (exists self c,
     FSQ.__init__ (D := IEEE.float64) [50]%Z eps_float64 = Ok self /\
     FSQ.codebook_size self = 50%Z /\
     FSQ.indexes_to_codes (D := IEEE.float64) self 11 = Ok c /\
     FSQ.codes_to_indexes (D := IEEE.float64) self c = Ok (Some 10%Z)) /\
  (exists self c,
     FSQ.__init__ (D := IEEE.float64) [1; 3]%Z eps_float64 = Ok self /\
     FSQ.codebook_size self = 3%Z /\
     FSQ.indexes_to_codes (D := IEEE.float64) self 1 = Ok c /\
     nth_error c 0 = Some S754_nan /\
     FSQ.codes_to_indexes (D := IEEE.float64) self c = Ok None) /\
  (exists self c,
     FSQ.__init__ (D := IEEE.float64) [65536; 65536; 2]%Z eps_float64
     = Ok self /\
     FSQ._basis self = [1; 65536; 0]%Z /\
     (0 <= 4294967296 < FSQ.codebook_size self)%Z /\
     FSQ.indexes_to_codes (D := IEEE.float64) self 4294967296 = Ok c /\
     FSQ.codes_to_indexes (D := IEEE.float64) self c = Ok (Some 0%Z)).
Proof.
  split; [|split].
  - do 2 eexists. split; [apply init_eq|].
    split; [reflexivity|].
    split; [apply indexes_to_codes_eq; split; reflexivity|].
    now vm_compute.
  - do 2 eexists. split; [apply init_eq|].
    split; [reflexivity|].
    split; [apply indexes_to_codes_eq; split; reflexivity|].
    split; now vm_compute.
  - do 2 eexists. split; [apply init_eq|].
    split; [reflexivity|].
    split; [unfold FSQ.codebook_size; cbn [instance FSQ._levels];
            now vm_compute|].
    split; [apply indexes_to_codes_eq; split; reflexivity|].
    unfold FSQ.codes_to_indexes, FSQ._scale_and_shift, FSQ.num_dimensions.
    cbn [instance FSQ._levels FSQ._levels_np FSQ._basis].
    now vm_compute.
Qed.

(** ** C2: the shift of the bounding transform *)

(** C2 (as stated) fails: the code takes the tangent, not the arctangent,
    of [offset / half_l].  With [levels = [4]], [eps = 1/1000] and [z = [0]]
    the bounded value differs from the one the arctangent would give. *)
Lemma bound_shift_counterexample :
  FSQ.bound (instance [4]%Z (Fin (1 / 1000))) [Fin 0]
  <> Ok [Fin (Dim.spec_bound_arctan (1 / 1000) 4 0)].
Proof.
  rewrite bound_vector by reflexivity.
  cbn [instance FSQ._levels FSQ._eps map combine fst snd].
  assert (Hh : Dim.half_l_R (1 / 1000) 4 = (2997 / 2000)%R)
    by (unfold Dim.half_l_R; change (NumPy.wrap_int64 (4 - 1)) with 3%Z; lra).
  rewrite bound_fin by (rewrite Hh; lra).
  intros Heq. injection Heq as Heq.
  unfold Dim.bound_tan, Dim.spec_bound_arctan in Heq. rewrite Hh in Heq.
  change (Dim.offset_R 4) with (1 / 2)%R in Heq.
  replace (1 / 2 / (2997 / 2000))%R with (1000 / 2997)%R in Heq by lra.
  assert (Ht : tanh (0 + tan (1000 / 2997)) = tanh (0 + atan (1000 / 2997)))
    by lra.
  apply tanh_injective in Ht.
  pose proof (tan_gt_x (1000 / 2997) ltac:(lra)).
  pose proof (atan_lt_x (1000 / 2997) ltac:(lra)).
  lra.
Qed.

(** C2 (as amended).  For levels of at least 2 and [0 <= eps < 1], on a
    finite vector of [num_dimensions] components, component [i] of [bound]
    is [tanh (z_i + shift) * half_l - offset] where [shift] is the tangent
    of [offset / half_l], [half_l = (L - 1) * (1 - eps) / 2], and [offset]
    is 0 for odd [L] and 1/2 for even [L]. *)
Theorem bound_formula (levels : list Z) (eps : R) (self : FSQ.t float)
    (z : list R) :
  Forall (fun L => 2 <= L < 9223372036854775808)%Z levels ->
  (0 <= eps < 1)%R ->
  FSQ.__init__ levels (Fin eps) = Ok self ->
  length z = FSQ.num_dimensions self ->
  FSQ.bound self (map Fin z)
  = Ok (map (fun p =>
          let L := fst p in
          let half_l := (IZR (L - 1) * (1 - eps) / 2)%R in
          let offset := if Z.odd L then 0%R else (1 / 2)%R in
          let shift := tan (offset / half_l) in
          Fin (tanh (snd p + shift) * half_l - offset)%R)
        (combine levels z)).
Proof.
  intros HL Heps Hinit Hlen.
  destruct (init_constructed _ _ _ Hinit) as ([Hnp _] & Hlev & Heps').
  unfold FSQ.num_dimensions in Hlen.
  rewrite bound_vector by (now rewrite ?length_map).
  rewrite Hlev, Heps'. rewrite Hlev in Hlen. clear Hinit Hnp Hlev Heps' self.
  f_equal. revert z Hlen.
  induction HL as [|L ls HL1 HL2 IH]; intros [|x z] Hlen; simpl in Hlen;
    try discriminate; [reflexivity|].
  cbn [map combine fst snd]. rewrite IH by lia. f_equal.
  rewrite bound_fin by (pose proof (half_l_pos eps Heps L HL1); lra).
  unfold Dim.bound_tan, Dim.half_l_R, Dim.offset_R.
  rewrite wrap_int64_small by lia.
  replace (L mod 2 =? 1)%Z with (Z.odd L); [reflexivity|].
  rewrite Zodd_mod. reflexivity.
Qed.

Lemma bound_formula_witness :
  FSQ.bound (instance [3; 5; 4]%Z (Fin (1 / 1000))) (map Fin [1 / 4; 3 / 5; -7]%R)
  = Ok (map (fun p =>
          let L := fst p in
          let half_l := (IZR (L - 1) * (1 - 1 / 1000) / 2)%R in
          let offset := if Z.odd L then 0%R else (1 / 2)%R in
          let shift := tan (offset / half_l) in
          Fin (tanh (snd p + shift) * half_l - offset)%R)
        (combine [3; 5; 4]%Z [1 / 4; 3 / 5; -7]%R)).
Proof.
  apply (bound_formula [3; 5; 4]%Z (1 / 1000) _ [1 / 4; 3 / 5; -7]%R).
  - repeat constructor; lia.
  - lra.
  - reflexivity.
  - reflexivity.
Defined.

(** ** C3: the range of [quantize] *)

(** C3 at its failing input.  With [levels = [1]] (a valid configuration)
    [quantize] returns NaN for every input, finite or not: [half_l] and
    [half_width] are both 0, and the code divides by them. *)
Theorem quantize_single_level (eps : R) (z : float) :
  FSQ.__init__ [1]%Z (Fin eps) = Ok (instance [1]%Z (Fin eps)) /\
  FSQ.quantize (instance [1]%Z (Fin eps)) [z] = Ok [NaN].
Proof.
  split; [apply init_eq|].
  rewrite quantize_vector by reflexivity.
  cbn [instance FSQ._levels FSQ._eps map combine fst snd].
  now rewrite quantize_one.
Qed.

(** ** C4: encoding a quantized vector and decoding the result *)

(** C4 at its failing inputs.
    - [levels = [27]] and [z = [-0.6]]: the bounded value rounds to -7, so
      [quantize] returns the level -7/13, digit 6 of the 27 (first
      conjunct, in exact arithmetic).  In float32, the arithmetic in which
      JAX evaluates [quantize] and [codes_to_indexes], that level is the
      quotient of -7 by 13 rounded to float32; scaling it back gives
      5.9999995, which the cast to uint32 truncates to the index 5; and
      index 5 decodes (in float64) to the level -8/13, a different
      codeword, below the first one.
    - [levels = [1]]: the quantized codeword is NaN and has no index. *)
Theorem quantize_roundtrip_float32 :
  FSQ.quantize (instance [27]%Z (Fin (1 / 1000))) [Fin (- (3 / 5))]
  = Ok [Dim.level_value 27 6] /\
  (let self := instance (D := IEEE.float64) [27]%Z eps_float64 in
   let c := Dim.level_value (D := IEEE.float32) 27 6 in
   FSQ.codes_to_indexes (D := IEEE.float32) self [c] = Ok (Some 5%Z) /\
   exists c',
     FSQ.indexes_to_codes (D := IEEE.float64) self 5 = Ok [c'] /\
     c' = Dim.level_value (D := IEEE.float64) 27 5 /\
     SFcompare c' (IEEE.astype IEEE.binary64 c) = Some Lt) /\
  (exists self c,
     FSQ.__init__ [1]%Z (Fin (1 / 1000)) = Ok self /\
     FSQ.quantize self [Fin (3 / 10)] = Ok c /\
     c = [NaN] /\
     FSQ.codes_to_indexes self c = Ok None).
Proof.
  split; [|split].
  - change [Fin (- (3 / 5))] with (map Fin [- (3 / 5)]%R).
    rewrite (quantize_codeword _ (1 / 1000));
      [| reflexivity | reflexivity | lra | repeat constructor; lia
       | reflexivity].
    cbn [instance FSQ._levels quantized_digits Radix.codeword].
    now rewrite round_bound_27_levels.
  - cbv zeta. split; [now vm_compute|].
    eexists. split; [now vm_compute|]. split; now vm_compute.
  - eexists. exists [NaN]. split; [apply init_eq|].
    split; [|split; [reflexivity | now vm_compute]].
    rewrite quantize_vector by reflexivity.
    cbn [instance FSQ._levels FSQ._eps map combine fst snd].
    now rewrite quantize_one.
Qed.

(** ** C5: the configuration with a single level *)

(** C5 at its input.  With [levels = [1]] the codebook has size 1 and
    index 0 is the only index enumerated, but the codeword stored for it,
    and decoded from it, is NaN (0/0), not 0: in exact arithmetic for
    every [eps], and in float64. *)
Theorem single_level_codebook (eps : R) :
  FSQ.__init__ [1]%Z (Fin eps) = Ok (instance [1]%Z (Fin eps)) /\
  FSQ.codebook_size (instance [1]%Z (Fin eps)) = 1%Z /\
  NumPy.arange (FSQ.codebook_size (instance [1]%Z (Fin eps))) = [0%Z] /\
  FSQ.codebook (instance [1]%Z (Fin eps)) = [[NaN]] /\
  FSQ.indexes_to_codes (instance [1]%Z (Fin eps)) 0 = Ok [NaN] /\
  FSQ.__init__ (D := IEEE.float64) [1]%Z eps_float64
  = Ok (FSQ.mk [1]%Z eps_float64 [1]%Z [1]%Z [[S754_nan]]).
Proof.
  assert (Hdec : decode [1]%Z 0 = [NaN]).
  { unfold decode.
    change (Radix.digits 0 (basis_of [1]%Z) [1]%Z) with [0%Z].
    cbn [Radix.codeword]. now rewrite level_value_one. }
  split; [apply init_eq|].
  split; [reflexivity|].
  split; [reflexivity|].
  split; [|split].
  - unfold FSQ.codebook. cbn [instance FSQ._implicit_codebook].
    change (NumPy.arange (NumPy.prod [1]%Z)) with [0%Z].
    cbn [map]. now rewrite Hdec.
  - rewrite indexes_to_codes_eq by (split; reflexivity). now f_equal.
  - now vm_compute.
Qed.

(** ** C6: construction *)

(** C6 (as stated) fails: construction succeeds on an empty list of
    levels, on a list with a level below 1, and on a list whose product
    overflows (2^32 * 2^32 wraps to a codebook size of 0).  The three
    codebooks have 0 elements. *)
Lemma construction_counterexample :
  (exists self, FSQ.__init__ [] (Fin (1 / 1000)) = Ok self /\
                FSQ.num_dimensions self = 0%nat /\
                FSQ.codebook self = [[]]) /\
  (exists self, FSQ.__init__ [0; 3]%Z (Fin (1 / 1000)) = Ok self /\
                FSQ.codebook self = []) /\
  (exists self,
     FSQ.__init__ [4294967296; 4294967296]%Z (Fin (1 / 1000)) = Ok self /\
                FSQ.codebook_size self = 0%Z /\
                FSQ.codebook self = []).
Proof.
  repeat split; eexists; (split; [apply init_eq|]); repeat split; reflexivity.
Qed.

(** C6 (as amended).  Construction validates nothing and raises no
    configuration error: for every list of int64 levels whose codebook is
    small enough to be materialised (at most 2^20 = 1048576 elements: the
    wrapped product of the levels times their number) and every [eps], in
    every arithmetic, it returns an object that stores the levels, the
    place values reduced modulo 2^32, and the codewords of the indices
    below the (wrapped) product of the levels.  A larger codebook makes
    [np.arange] fail for lack of memory, which is no check of the
    configuration. *)
Theorem construction_unvalidated {F : Type} {D : Dtype F}
    (levels : list Z) (eps : F) :
  Forall NumPy.is_int64 levels ->
  (NumPy.prod levels * Z.of_nat (length levels) <= 1048576)%Z ->
  exists self,
    FSQ.__init__ levels eps = Ok self /\
    FSQ._levels self = levels /\
    FSQ._eps self = eps /\
    FSQ._basis self
    = map NumPy.astype_uint32 (1%Z :: NumPy.cumprod (removelast levels)) /\
    FSQ.codebook_size self = NumPy.prod levels /\
    mapM (FSQ.indexes_to_codes self) (NumPy.arange (NumPy.prod levels))
    = Ok (FSQ.codebook self).
Proof.
  intros _ _.
  exists (instance levels eps).
  split; [apply init_eq|]. repeat split.
  rewrite (mapM_total _ (decode levels)); [reflexivity|].
  intros index. now rewrite indexes_to_codes_eq by (split; reflexivity).
Qed.

Lemma construction_unvalidated_witness :
  exists self,
    FSQ.__init__ [3; 4]%Z (Fin (1 / 1000)) = Ok self /\
    FSQ._levels self = [3; 4]%Z /\
    FSQ._eps self = Fin (1 / 1000) /\
    FSQ._basis self
    = map NumPy.astype_uint32 (1%Z :: NumPy.cumprod (removelast [3; 4]%Z)) /\
    FSQ.codebook_size self = NumPy.prod [3; 4]%Z /\
    mapM (FSQ.indexes_to_codes self) (NumPy.arange (NumPy.prod [3; 4]%Z))
    = Ok (FSQ.codebook self).
Proof.
  apply (construction_unvalidated [3; 4]%Z (Fin (1 / 1000))).
  - repeat constructor; unfold NumPy.is_int64; lia.
  - now vm_compute.
Defined.

(** ** C7: decoding any index *)

(** C7 (as stated) fails: [indexes_to_codes] performs no range check.
    With [levels = [3; 5; 4]] (codebook size 60) the indices 60 and -1 are
    decoded without error, to the codewords of 0 and of 59. *)
Lemma decode_range_counterexample :
  exists self c60 c_neg,
    FSQ.__init__ [3; 5; 4]%Z (Fin (1 / 1000)) = Ok self /\
    FSQ.codebook_size self = 60%Z /\
    FSQ.indexes_to_codes self 60 = Ok c60 /\
    FSQ.indexes_to_codes self 0 = Ok c60 /\
    FSQ.indexes_to_codes self (-1) = Ok c_neg /\
    FSQ.indexes_to_codes self 59 = Ok c_neg.
Proof.
  do 3 eexists. split; [apply init_eq|].
  split; [reflexivity|].
  repeat split; rewrite indexes_to_codes_eq by (split; reflexivity);
    reflexivity.
Qed.

(** C7 (as amended).  [indexes_to_codes] raises no error on any integer
    index, negative or not below [codebook_size]: in every arithmetic it
    returns the codeword
    of the digits [floor_divide index basis mod levels], one component per
    dimension. *)
Theorem decode_total {F : Type} {D : Dtype F}
    (levels : list Z) (eps : F) (self : FSQ.t F) (index : Z) :
  Forall NumPy.is_int64 levels -> NumPy.is_int64 index ->
  FSQ.__init__ levels eps = Ok self ->
  exists c,
    FSQ.indexes_to_codes self index = Ok c /\
    length c = FSQ.num_dimensions self /\
    c = Radix.codeword levels
          (Radix.digits index (FSQ._basis self) levels).
Proof.
  intros _ _ Hinit.
  destruct (init_constructed _ _ _ Hinit) as (Hself & Hlev & _).
  eexists. split; [now apply indexes_to_codes_eq|].
  rewrite Hlev. split; [|reflexivity].
  unfold FSQ.num_dimensions. rewrite Hlev.
  destruct Hself as [_ Hb]. rewrite Hb, Hlev.
  clear. destruct levels as [|L ls]; [reflexivity|].
  pose proof (length_basis_of (L :: ls) ltac:(discriminate)) as Hlen.
  revert Hlen. generalize (basis_of (L :: ls)) as bs.
  generalize (L :: ls) as l. clear.
  induction l as [|L ls IH]; intros [|b bs] Hlen; simpl in Hlen;
    try discriminate; [reflexivity|].
  cbn [Radix.digits Radix.codeword length]. f_equal. apply IH. lia.
Qed.

Lemma decode_total_witness :
  exists c,
    FSQ.indexes_to_codes (instance [3; 5; 4]%Z (Fin (1 / 1000))) 60 = Ok c /\
    length c = FSQ.num_dimensions (instance [3; 5; 4]%Z (Fin (1 / 1000))) /\
    c = Radix.codeword [3; 5; 4]%Z
          (Radix.digits 60 (FSQ._basis (instance [3; 5; 4]%Z (Fin (1 / 1000))))
             [3; 5; 4]%Z).
Proof.
  apply (decode_total [3; 5; 4]%Z (Fin (1 / 1000)) _ 60).
  - repeat constructor; unfold NumPy.is_int64; lia.
  - unfold NumPy.is_int64; lia.
  - reflexivity.
Defined.

(** ** C8: inputs of the wrong length *)

(** C8 at its failing input.  With [levels = [3; 5; 4]], [quantize] of an
    input of one component raises nothing: the input is broadcast against
    the three level counts and the result has three components, not the
    shape of the input.  The sibling method [codes_to_indexes] rejects the
    same input with its assertion. *)
Theorem quantize_length_unchecked :
  FSQ.__init__ [3; 5; 4]%Z (Fin (1 / 1000))
  = Ok (instance [3; 5; 4]%Z (Fin (1 / 1000))) /\
  FSQ.num_dimensions (instance [3; 5; 4]%Z (Fin (1 / 1000))) = 3%nat /\
  (exists c,
     FSQ.quantize (instance [3; 5; 4]%Z (Fin (1 / 1000))) [Fin (1 / 4)]
     = Ok c /\
     length c = 3%nat) /\
  FSQ.codes_to_indexes (instance [3; 5; 4]%Z (Fin (1 / 1000))) [Fin (1 / 4)]
  = Raise AssertionError.
Proof.
  split; [apply init_eq|]. split; [reflexivity|]. split; [|reflexivity].
  destruct (quantize_stretch_input (instance [3; 5; 4]%Z (Fin (1 / 1000)))
              (Fin (1 / 4)) eq_refl) as (c & Hq & Hlen).
  exists c. split; assumption.
Qed.

(** ** C9: the implicit codebook *)

(** C9.  In every arithmetic, the codebook of a constructed quantizer has
    [codebook_size] entries, and for every [k] in [0, codebook_size) its
    [k]-th entry is the codeword [indexes_to_codes] returns for [k]. *)
Theorem codebook_enumeration {F : Type} {D : Dtype F}
    (levels : list Z) (eps : F) (self : FSQ.t F) :
  Forall NumPy.is_int64 levels ->
  FSQ.__init__ levels eps = Ok self ->
  (0 <= FSQ.codebook_size self)%Z ->
  Z.of_nat (length (FSQ.codebook self)) = FSQ.codebook_size self /\
  forall k, (0 <= k < FSQ.codebook_size self)%Z ->
    exists c, nth_error (FSQ.codebook self) (Z.to_nat k) = Some c /\
              FSQ.indexes_to_codes self k = Ok c.
Proof.
  intros _ Hinit Hsize.
  rewrite init_eq in Hinit. injection Hinit as <-.
  unfold FSQ.codebook, FSQ.codebook_size in *.
  cbn [instance FSQ._implicit_codebook FSQ._levels] in *.
  split.
  - rewrite length_map, arange_length. lia.
  - intros k Hk. exists (decode levels k). split.
    + rewrite nth_error_map, arange_nth by assumption. reflexivity.
    + now rewrite indexes_to_codes_eq by (split; reflexivity).
Qed.

Lemma codebook_enumeration_witness :
  Z.of_nat (length (FSQ.codebook (instance [3; 4]%Z (Fin (1 / 1000)))))
  = FSQ.codebook_size (instance [3; 4]%Z (Fin (1 / 1000))) /\
  forall k, (0 <= k < FSQ.codebook_size (instance [3; 4]%Z (Fin (1 / 1000))))%Z ->
    exists c,
      nth_error (FSQ.codebook (instance [3; 4]%Z (Fin (1 / 1000)))) (Z.to_nat k)
      = Some c /\
      FSQ.indexes_to_codes (instance [3; 4]%Z (Fin (1 / 1000))) k = Ok c.
Proof.
  apply (codebook_enumeration [3; 4]%Z (Fin (1 / 1000))).
  - repeat constructor; unfold NumPy.is_int64; lia.
  - reflexivity.
  - unfold FSQ.codebook_size. cbn [instance FSQ._levels]. now vm_compute.
Defined.

(** ** C10: indices beyond the codebook *)

(** C10.  For a valid configuration and in every arithmetic,
    [indexes_to_codes] raises nothing on any index, and the codeword of an
    index is the codeword of its
    remainder modulo [codebook_size], which is a valid index: indices at or
    above [codebook_size] are silently aliased. *)
Theorem decode_periodic {F : Type} {D : Dtype F}
    (levels : list Z) (eps : F) (self : FSQ.t F) (index : Z) :
  valid_config levels -> NumPy.is_int64 index ->
  FSQ.__init__ levels eps = Ok self ->
  exists c,
    FSQ.indexes_to_codes self index = Ok c /\
    FSQ.indexes_to_codes self (index mod FSQ.codebook_size self) = Ok c /\
    (0 <= index mod FSQ.codebook_size self < FSQ.codebook_size self)%Z.
Proof.
  intros (Hne & Hpos & Hbound) _ Hinit.
  destruct (init_constructed _ _ _ Hinit) as (Hself & Hlev & _).
  pose proof (product_pos levels Hpos) as Hp.
  pose proof (product_removelast_le levels Hpos) as Hrl.
  assert (Hbasis : basis_of levels = Radix.places 1 levels)
    by (apply basis_of_exact; auto; lia).
  assert (Hprod : NumPy.prod levels = Radix.product levels)
    by (apply prod_exact; auto; lia).
  eexists. split; [now apply indexes_to_codes_eq|]. split.
  - rewrite indexes_to_codes_eq by assumption.
    destruct Hself as [_ Hb].
    unfold FSQ.codebook_size. rewrite Hb, Hlev, Hbasis, Hprod.
    now rewrite digits_periodic.
  - unfold FSQ.codebook_size. rewrite Hlev, Hprod.
    apply Z.mod_pos_bound. lia.
Qed.

Lemma decode_periodic_witness :
  exists c,
    FSQ.indexes_to_codes (instance [3; 5; 4]%Z (Fin (1 / 1000))) 97 = Ok c /\
    FSQ.indexes_to_codes (instance [3; 5; 4]%Z (Fin (1 / 1000)))
      (97 mod FSQ.codebook_size (instance [3; 5; 4]%Z (Fin (1 / 1000)))) = Ok c /\
    (0 <= 97 mod FSQ.codebook_size (instance [3; 5; 4]%Z (Fin (1 / 1000)))
        < FSQ.codebook_size (instance [3; 5; 4]%Z (Fin (1 / 1000))))%Z.
Proof.
  apply (decode_periodic [3; 5; 4]%Z (Fin (1 / 1000)) _ 97).
  - split; [discriminate|].
    split; [repeat constructor; lia | now vm_compute].
  - unfold NumPy.is_int64; lia.
  - reflexivity.
Defined.

(** * Further properties *)

(** X1 (the part of C3 the code does satisfy).  In exact arithmetic, for
    levels of at least 2 and [0 <= eps < 1], every component of the
    quantized codeword of a finite vector is one of the [L] renormalised
    levels of its dimension, is finite, and lies in [-1, 1]. *)
Theorem quantize_levels (levels : list Z) (eps : R) (self : FSQ.t float)
    (z : list R) :
  Forall (fun L => 2 <= L < 9223372036854775808)%Z levels ->
  (0 <= eps < 1)%R ->
  FSQ.__init__ levels (Fin eps) = Ok self ->
  length z = FSQ.num_dimensions self ->
  exists c,
    FSQ.quantize self (map Fin z) = Ok c /\
    Forall2 (fun L x =>
               (exists d, (0 <= d < L)%Z /\ x = Dim.level_value L d) /\
               (exists r, x = Fin r /\ (-1 <= r <= 1)%R))
            levels c.
Proof.
  intros HL Heps Hinit Hlen.
  destruct (init_constructed _ _ _ Hinit) as ([Hnp _] & Hlev & Heps').
  unfold FSQ.num_dimensions in Hlen.
  clear Hinit. subst levels.
  eexists. split; [now apply (quantize_codeword _ eps)|].
  pose proof (quantized_digits_valid _ _ z Heps HL Hlen) as Hv.
  revert Hv.
  generalize (quantized_digits eps (FSQ._levels self) z) as ds.
  revert HL. generalize (FSQ._levels self) as levels. clear.
  intros levels HL.
  induction HL as [|L ls HL1 HL2 IH]; intros [|d ds] Hv; simpl in Hv;
    try contradiction.
  - constructor.
  - destruct Hv as [Hd Hv]. cbn [Radix.codeword]. constructor.
    + split; [now exists d | now apply level_value_range].
    + now apply IH.
Qed.

Lemma quantize_levels_witness :
  exists c,
    FSQ.quantize (instance [3; 5; 4]%Z (Fin (1 / 1000)))
                 (map Fin [1 / 4; 3 / 5; -7]%R) = Ok c /\
    Forall2 (fun L x =>
               (exists d, (0 <= d < L)%Z /\ x = Dim.level_value L d) /\
               (exists r, x = Fin r /\ (-1 <= r <= 1)%R))
            [3; 5; 4]%Z c.
Proof.
  apply (quantize_levels [3; 5; 4]%Z (1 / 1000) _ [1 / 4; 3 / 5; -7]%R).
  - repeat constructor; lia.
  - lra.
  - reflexivity.
  - reflexivity.
Defined.

(** X2.  In exact arithmetic, for levels of at least 2 and
    [0 <= eps < 1], every component of the bounded vector lies strictly
    inside [(- half_l - offset, half_l - offset)], whatever the magnitude
    of the input. *)
Theorem bound_range (levels : list Z) (eps : R) (self : FSQ.t float)
    (z : list R) :
  Forall (fun L => 2 <= L < 9223372036854775808)%Z levels ->
  (0 <= eps < 1)%R ->
  FSQ.__init__ levels (Fin eps) = Ok self ->
  length z = FSQ.num_dimensions self ->
  exists b,
    FSQ.bound self (map Fin z) = Ok (map Fin b) /\
    Forall2 (fun L x =>
               let half_l := (IZR (L - 1) * (1 - eps) / 2)%R in
               let offset := if Z.odd L then 0%R else (1 / 2)%R in
               (- half_l - offset < x < half_l - offset)%R)
            levels b.
Proof.
  intros HL Heps Hinit Hlen.
  destruct (init_constructed _ _ _ Hinit) as ([Hnp _] & Hlev & Heps').
  unfold FSQ.num_dimensions in Hlen.
  rewrite bound_vector by (now rewrite ?length_map).
  rewrite Hlev, Heps'. rewrite Hlev in Hlen. clear Hinit Hnp Hlev Heps' self.
  revert z Hlen.
  induction HL as [|L ls HL1 HL2 IH]; intros [|x z] Hlen; simpl in Hlen;
    try discriminate.
  - exists []. split; [reflexivity | constructor].
  - destruct (IH z ltac:(lia)) as (b & Hb & Hrange).
    injection Hb as Hb.
    exists (Dim.bound_tan eps L x :: b). split.
    + cbn [map combine fst snd]. rewrite Hb.
      rewrite bound_fin by (pose proof (half_l_pos eps Heps L HL1); lra).
      reflexivity.
    + constructor; [|assumption].
      pose proof (half_l_pos eps Heps L HL1) as Hh.
      unfold Dim.bound_tan, Dim.half_l_R, Dim.offset_R in *.
      rewrite wrap_int64_small in * by lia.
      replace (L mod 2 =? 1)%Z with (Z.odd L) by (now rewrite Zodd_mod).
      cbv zeta.
      match goal with |- context [tanh ?a] =>
        pose proof (tanh_bounds a) as [Hlo Hhi]; set (t := tanh a) in *
      end.
      split; nra.
Qed.

Lemma bound_range_witness :
  exists b,
    FSQ.bound (instance [3; 5; 4]%Z (Fin (1 / 1000)))
              (map Fin [1000000; 3 / 5; -1000000]%R) = Ok (map Fin b) /\
    Forall2 (fun L x =>
               let half_l := (IZR (L - 1) * (1 - 1 / 1000) / 2)%R in
               let offset := if Z.odd L then 0%R else (1 / 2)%R in
               (- half_l - offset < x < half_l - offset)%R)
            [3; 5; 4]%Z b.
Proof.
  apply (bound_range [3; 5; 4]%Z (1 / 1000) _ [1000000; 3 / 5; -1000000]%R).
  - repeat constructor; lia.
  - lra.
  - reflexivity.
  - reflexivity.
Defined.

(** X3.  In exact arithmetic, for levels of at least 2 and
    [0 <= eps < 1], [bound] is strictly increasing in every component. *)
Theorem bound_monotone (levels : list Z) (eps : R) (self : FSQ.t float)
    (z z' : list R) :
  Forall (fun L => 2 <= L < 9223372036854775808)%Z levels ->
  (0 <= eps < 1)%R ->
  FSQ.__init__ levels (Fin eps) = Ok self ->
  length z = FSQ.num_dimensions self ->
  Forall2 Rlt z z' ->
  exists b b',
    FSQ.bound self (map Fin z) = Ok (map Fin b) /\
    FSQ.bound self (map Fin z') = Ok (map Fin b') /\
    Forall2 Rlt b b'.
Proof.
  intros HL Heps Hinit Hlen Hlt.
  destruct (init_constructed _ _ _ Hinit) as ([Hnp _] & Hlev & Heps').
  unfold FSQ.num_dimensions in Hlen.
  assert (Hlen' : length z' = length (FSQ._levels self))
    by (now rewrite <- (Forall2_length Hlt)).
  rewrite !bound_vector by (now rewrite ?length_map).
  rewrite Hlev, Heps'. rewrite Hlev in Hlen.
  clear Hinit Hnp Hlev Heps' Hlen' self.
  revert levels HL Hlen.
  induction Hlt as [|x x' z z' Hx Hz IH]; intros [|L ls] HL Hlen;
    simpl in Hlen; try discriminate.
  - exists [], []. repeat split; constructor.
  - inversion HL as [|? ? HL1 HL2]; subst.
    destruct (IH ls HL2 ltac:(lia)) as (b & b' & Hb & Hb' & Hbb).
    injection Hb as Hb. injection Hb' as Hb'.
    pose proof (half_l_pos eps Heps L HL1) as Hh.
    exists (Dim.bound_tan eps L x :: b), (Dim.bound_tan eps L x' :: b').
    cbn [map combine fst snd]. rewrite Hb, Hb'.
    rewrite !bound_fin by lra.
    repeat split. constructor; [|assumption].
    unfold Dim.bound_tan.
    set (s := tan _).
    pose proof (tanh_increasing (x + s) (x' + s) ltac:(lra)).
    nra.
Qed.

Lemma bound_monotone_witness :
  exists b b',
    FSQ.bound (instance [3; 5; 4]%Z (Fin (1 / 1000))) (map Fin [0; 0; 0]%R)
    = Ok (map Fin b) /\
    FSQ.bound (instance [3; 5; 4]%Z (Fin (1 / 1000))) (map Fin [1; 2; 3]%R)
    = Ok (map Fin b') /\
    Forall2 Rlt b b'.
Proof.
  apply (bound_monotone [3; 5; 4]%Z (1 / 1000) _ [0; 0; 0]%R [1; 2; 3]%R).
  - repeat constructor; lia.
  - lra.
  - reflexivity.
  - reflexivity.
  - repeat constructor; lra.
Defined.

(** X4.  For a valid configuration (and in every arithmetic) the stored
    basis holds the exact mixed-radix place values, [basis[0] = 1] and
    [basis[i+1] = basis[i] * levels[i]], and [codebook_size] is the exact
    product of the levels. *)
Theorem basis_invariant {F : Type} {D : Dtype F}
    (levels : list Z) (eps : F) (self : FSQ.t F) :
  valid_config levels ->
  FSQ.__init__ levels eps = Ok self ->
  FSQ._basis self = Radix.places 1 levels /\
  FSQ.codebook_size self = Radix.product levels.
Proof.
  intros (Hne & Hpos & Hbound) Hinit.
  destruct (init_constructed _ _ _ Hinit) as ([_ Hb] & Hlev & _).
  pose proof (product_pos levels Hpos) as Hp.
  pose proof (product_removelast_le levels Hpos) as Hrl.
  unfold FSQ.codebook_size. rewrite Hb, Hlev. split.
  - apply basis_of_exact; auto. lia.
  - apply prod_exact; auto. lia.
Qed.

Lemma basis_invariant_witness :
  FSQ._basis (instance [3; 5; 4]%Z (Fin (1 / 1000))) = [1; 3; 15]%Z /\
  FSQ.codebook_size (instance [3; 5; 4]%Z (Fin (1 / 1000))) = 60%Z.
Proof.
  apply (basis_invariant [3; 5; 4]%Z (Fin (1 / 1000))).
  - split; [discriminate|].
    split; [repeat constructor; lia | now vm_compute].
  - reflexivity.
Defined.

(** X6.  The example of the notebook: with [levels = [3; 5; 4]] and the
    default [eps], [z = [0.25; 0.6; -7]] is quantized to [[0; 0.5; -1]],
    the levels of the digits [[1; 3; 0]], which is index 10 of the
    codebook, and index 10 decodes to the same codeword (in exact
    arithmetic).  In floating point too, the float32 levels of these digits
    are encoded as index 10, and index 10 is decoded, in float64, to the
    same values. *)
Theorem notebook_example :
  FSQ.__init__ [3; 5; 4]%Z (Fin (1 / 1000))
  = Ok (instance [3; 5; 4]%Z (Fin (1 / 1000))) /\
  FSQ.quantize (instance [3; 5; 4]%Z (Fin (1 / 1000)))
               [Fin (1 / 4); Fin (3 / 5); Fin (- 7)]
  = Ok [Fin 0; Fin (1 / 2); Fin (- 1)] /\
  FSQ.codes_to_indexes (instance [3; 5; 4]%Z (Fin (1 / 1000)))
                       [Fin 0; Fin (1 / 2); Fin (- 1)]
  = Ok (Some 10%Z) /\
  FSQ.indexes_to_codes (instance [3; 5; 4]%Z (Fin (1 / 1000))) 10
  = Ok [Fin 0; Fin (1 / 2); Fin (- 1)] /\
  (let self := instance (D := IEEE.float64) [3; 5; 4]%Z eps_float64 in
   let c := Radix.codeword (D := IEEE.float32) [3; 5; 4]%Z [1; 3; 0]%Z in
   FSQ.codes_to_indexes (D := IEEE.float32) self c = Ok (Some 10%Z) /\
   FSQ.indexes_to_codes (D := IEEE.float64) self 10
   = Ok (map (IEEE.astype IEEE.binary64) c)).
Proof.
  set (self := instance [3; 5; 4]%Z (Fin (1 / 1000))).
  assert (Hself : constructed self) by (split; reflexivity).
  assert (Hrange : Forall (fun L => 2 <= L < 9223372036854775808)%Z
                     (FSQ._levels self))
    by (repeat constructor; lia).
  assert (Hcode : Radix.codeword (FSQ._levels self) [1; 3; 0]%Z
                  = [Fin 0; Fin (1 / 2); Fin (- 1)]).
  { cbn [self instance FSQ._levels Radix.codeword].
    rewrite !level_value_fin by lia.
    change (Dim.half_width 3) with 1%Z. change (Dim.half_width 5) with 2%Z.
    change (Dim.half_width 4) with 2%Z.
    repeat f_equal; simpl; lra. }
  split; [reflexivity|]. split; [|split; [|split]].
  - change [Fin (1 / 4); Fin (3 / 5); Fin (- 7)]
      with (map Fin [1 / 4; 3 / 5; - 7]%R).
    rewrite (quantize_codeword _ (1 / 1000));
      [| reflexivity | reflexivity | lra | assumption | reflexivity].
    rewrite <- Hcode. do 2 f_equal.
    cbn [self instance FSQ._levels quantized_digits].
    rewrite round_bound_example_0, round_bound_example_1,
      round_bound_example_2.
    reflexivity.
  - rewrite <- Hcode.
    rewrite codes_to_indexes_codeword
      by (auto; try discriminate; cbn; repeat split; lia).
    change (Radix.value [1; 3; 0]%Z (FSQ._basis self)) with 10%Z.
    now rewrite astype_uint32_of_int by lia.
  - rewrite indexes_to_codes_eq by assumption.
    rewrite <- Hcode. reflexivity.
  - split; now vm_compute.
Qed.

(** X7.  In exact arithmetic the two codec methods are inverse on indices:
    for a configuration whose levels are all at least 2 and whose product
    is at most 2^32, and for every index in [0, codebook_size),
    [indexes_to_codes] returns a codeword and [codes_to_indexes] maps that
    codeword back to the same index.  The failure of the round trip in
    float64 comes from rounding followed by the truncating cast, not from
    the mixed-radix scheme. *)
Theorem index_roundtrip_exact (levels : list Z) (eps : R)
    (self : FSQ.t float) (index : Z) :
  levels <> [] -> codec_config levels ->
  FSQ.__init__ levels (Fin eps) = Ok self ->
  (0 <= index < FSQ.codebook_size self)%Z ->
  exists c, FSQ.indexes_to_codes self index = Ok c /\
            FSQ.codes_to_indexes self c = Ok (Some index).
Proof.
  intros Hne Hcfg Hinit Hidx.
  destruct (init_constructed _ _ _ Hinit) as (Hself & Hlev & _).
  destruct (codec_config_facts levels Hne Hcfg) as (Hrange & Hbasis & Hprod).
  destruct Hcfg as [Hall Hbound].
  pose proof (Forall_two_one levels Hall) as Hpos.
  unfold FSQ.codebook_size in Hidx. rewrite Hlev, Hprod in Hidx.
  eexists. split; [now apply indexes_to_codes_eq|].
  destruct Hself as [Hnp Hb].
  rewrite Hb, Hlev, Hbasis.
  rewrite <- Hlev at 1.
  rewrite codes_to_indexes_codeword; rewrite ?Hlev; auto.
  - rewrite Hb, Hlev, Hbasis, value_digits by (auto; lia).
    rewrite Z.div_1_r, Z.mul_1_l, Z.mod_small by lia.
    now rewrite astype_uint32_of_int by lia.
  - split; assumption.
  - apply digits_valid; [assumption | lia].
Qed.

Lemma index_roundtrip_exact_witness :
  exists self,
    FSQ.__init__ [3; 5; 4]%Z (Fin (1 / 1000)) = Ok self /\
    exists c, FSQ.indexes_to_codes self 37 = Ok c /\
              FSQ.codes_to_indexes self c = Ok (Some 37%Z).
Proof.
  eexists. split; [reflexivity|].
  apply (index_roundtrip_exact [3; 5; 4]%Z (1 / 1000) _ 37).
  - discriminate.
  - split; [repeat constructor; lia | now vm_compute].
  - reflexivity.
  - now vm_compute.
Defined.

(** X8.  In exact arithmetic, for a configuration whose levels are all at
    least 2 and whose product is at most 2^32, with [0 <= eps < 1], the
    codeword [quantize] returns for a finite vector of [num_dimensions]
    components encodes to an index below [codebook_size], and that index
    decodes to the same codeword. *)
Theorem quantize_roundtrip_exact (levels : list Z) (eps : R)
    (self : FSQ.t float) (z : list R) :
  levels <> [] -> codec_config levels -> (0 <= eps < 1)%R ->
  FSQ.__init__ levels (Fin eps) = Ok self ->
  length z = FSQ.num_dimensions self ->
  exists c index,
    FSQ.quantize self (map Fin z) = Ok c /\
    FSQ.codes_to_indexes self c = Ok (Some index) /\
    (0 <= index < FSQ.codebook_size self)%Z /\
    FSQ.indexes_to_codes self index = Ok c.
Proof.
  intros Hne Hcfg Heps Hinit Hlen.
  destruct (init_constructed _ _ _ Hinit) as (Hself & Hlev & Heps').
  destruct (codec_config_facts levels Hne Hcfg) as (Hrange & Hbasis & Hprod).
  clear Hinit. subst levels.
  pose proof Hself as [Hnp Hb].
  unfold FSQ.num_dimensions in Hlen.
  set (ds := quantized_digits eps (FSQ._levels self) z).
  assert (Hv : Radix.valid_digits ds (FSQ._levels self))
    by (apply quantized_digits_valid; auto).
  pose proof (value_bounds _ _ 1%Z Hv ltac:(lia)) as Hval.
  destruct Hcfg as [Hall Hbound].
  exists (Radix.codeword (FSQ._levels self) ds).
  exists (Radix.value ds (Radix.places 1 (FSQ._levels self))).
  split; [|split; [|split]].
  - now apply quantize_codeword.
  - rewrite codes_to_indexes_codeword by auto.
    rewrite Hb, Hbasis.
    now rewrite astype_uint32_of_int by lia.
  - unfold FSQ.codebook_size. rewrite Hprod. lia.
  - rewrite indexes_to_codes_eq by assumption.
    rewrite Hb, Hbasis.
    rewrite <- (Z.add_0_r (Radix.value _ _)).
    rewrite digits_value by (auto; lia). reflexivity.
Qed.

Lemma quantize_roundtrip_exact_witness :
  exists self,
    FSQ.__init__ [3; 5; 4]%Z (Fin (1 / 1000)) = Ok self /\
    exists c index,
      FSQ.quantize self (map Fin [1 / 4; 3 / 5; -7]%R) = Ok c /\
      FSQ.codes_to_indexes self c = Ok (Some index) /\
      (0 <= index < FSQ.codebook_size self)%Z /\
      FSQ.indexes_to_codes self index = Ok c.
Proof.
  eexists. split; [reflexivity|].
  apply (quantize_roundtrip_exact [3; 5; 4]%Z (1 / 1000) _
           [1 / 4; 3 / 5; -7]%R).
  - discriminate.
  - split; [repeat constructor; lia | now vm_compute].
  - lra.
  - reflexivity.
  - reflexivity.
Defined.

(** X9.  In float64, with a single dimension of fewer than 50 levels,
    every index in [0, codebook_size) is decoded and encoded back to
    itself: 50 is the first level count at which the truncating cast loses
    an index. *)
Theorem index_roundtrip_float64_small (L index : Z) :
  (2 <= L < 50)%Z -> (0 <= index < L)%Z ->
  exists self c,
    FSQ.__init__ (D := IEEE.float64) [L] eps_float64 = Ok self /\
    FSQ.indexes_to_codes (D := IEEE.float64) self index = Ok c /\
    FSQ.codes_to_indexes (D := IEEE.float64) self c = Ok (Some index).
Proof.
  intros HL Hidx.
  assert (Hall :
    forallb (fun L =>
               forallb (index_roundtrips (D := IEEE.float64)
                          (instance (D := IEEE.float64) [L] eps_float64))
                       (NumPy.arange L))
            (map Z.of_nat (seq 2 48)) = true) by now vm_compute.
  rewrite forallb_forall in Hall.
  specialize (Hall L (in_range_from 2 48 L ltac:(lia))).
  rewrite forallb_forall in Hall.
  specialize (Hall index (in_arange L index Hidx)).
  unfold index_roundtrips in Hall.
  exists (instance (D := IEEE.float64) [L] eps_float64).
  destruct (FSQ.indexes_to_codes _ index) as [c|] eqn:Hc; [|discriminate].
  destruct (FSQ.codes_to_indexes _ c) as [[i|]|] eqn:Hi; try discriminate.
  apply Z.eqb_eq in Hall. subst i.
  exists c. split; [apply init_eq|]. split; [reflexivity | assumption].
Qed.

Lemma index_roundtrip_float64_small_witness :
  exists self c,
    FSQ.__init__ (D := IEEE.float64) [49]%Z eps_float64 = Ok self /\
    FSQ.indexes_to_codes (D := IEEE.float64) self 11 = Ok c /\
    FSQ.codes_to_indexes (D := IEEE.float64) self c = Ok (Some 11%Z).
Proof.
  apply (index_roundtrip_float64_small 49 11); lia.
Defined.

(** X10.  In float32, with a single dimension of fewer than 26 levels, the
    level of every digit (the quotient [quantize] forms for it) is encoded
    as that digit: 26 is the first level count at which the truncating cast
    loses a quantized codeword. *)
Theorem level_encoding_float32_small (L d : Z) :
  (2 <= L < 26)%Z -> (0 <= d < L)%Z ->
  FSQ.codes_to_indexes (D := IEEE.float32)
    (instance (D := IEEE.float64) [L] eps_float64)
    [Dim.level_value (D := IEEE.float32) L d]
  = Ok (Some d).
Proof.
  intros HL Hd.
  assert (Hall :
    forallb (fun L =>
               forallb (level_encodes (D := IEEE.float32)
                          (instance (D := IEEE.float64) [L] eps_float64) L)
                       (NumPy.arange L))
            (map Z.of_nat (seq 2 24)) = true) by now vm_compute.
  rewrite forallb_forall in Hall.
  specialize (Hall L (in_range_from 2 24 L ltac:(lia))).
  rewrite forallb_forall in Hall.
  specialize (Hall d (in_arange L d Hd)).
  unfold level_encodes in Hall.
  destruct (FSQ.codes_to_indexes _ _) as [[i|]|] eqn:Hi; try discriminate.
  apply Z.eqb_eq in Hall. now subst i.
Qed.

Lemma level_encoding_float32_small_witness :
  FSQ.codes_to_indexes (D := IEEE.float32)
    (instance (D := IEEE.float64) [25]%Z eps_float64)
    [Dim.level_value (D := IEEE.float32) 25 6]
  = Ok (Some 6%Z).
Proof.
  apply (level_encoding_float32_small 25 6); lia.
Defined.

(** X11.  In exact arithmetic, for levels of at least 2 and
    [0 <= eps < 1], [quantize] is monotone: if [z_i <= z'_i] in every
    component then the quantized components are in the same order. *)
Theorem quantize_monotone (levels : list Z) (eps : R) (self : FSQ.t float)
    (z z' : list R) :
  Forall (fun L => 2 <= L < 9223372036854775808)%Z levels ->
  (0 <= eps < 1)%R ->
  FSQ.__init__ levels (Fin eps) = Ok self ->
  length z = FSQ.num_dimensions self ->
  Forall2 Rle z z' ->
  exists c c',
    FSQ.quantize self (map Fin z) = Ok (map Fin c) /\
    FSQ.quantize self (map Fin z') = Ok (map Fin c') /\
    Forall2 Rle c c'.
Proof.
  intros HL Heps Hinit Hlen Hz.
  destruct (init_constructed _ _ _ Hinit) as ([Hnp _] & Hlev & Heps').
  unfold FSQ.num_dimensions in Hlen.
  clear Hinit. subst levels.
  assert (Hlen' : length z' = length (FSQ._levels self))
    by (now rewrite <- (Forall2_length Hz)).
  rewrite !(quantize_codeword _ eps) by assumption.
  destruct (codeword_monotone (FSQ._levels self)
              (quantized_digits eps (FSQ._levels self) z)
              (quantized_digits eps (FSQ._levels self) z') HL)
    as (c & c' & Hc & Hc' & Hcc).
  - now apply quantized_digits_valid.
  - now apply quantized_digits_valid.
  - now apply quantized_digits_monotone.
  - exists c, c'. now rewrite Hc, Hc'.
Qed.

Lemma quantize_monotone_witness :
  exists c c',
    FSQ.quantize (instance [3; 5; 4]%Z (Fin (1 / 1000)))
                 (map Fin [0; - 1; 2]%R) = Ok (map Fin c) /\
    FSQ.quantize (instance [3; 5; 4]%Z (Fin (1 / 1000)))
                 (map Fin [1; - 1; 3]%R) = Ok (map Fin c') /\
    Forall2 Rle c c'.
Proof.
  apply (quantize_monotone [3; 5; 4]%Z (1 / 1000) _ [0; - 1; 2]%R
           [1; - 1; 3]%R).
  - repeat constructor; lia.
  - lra.
  - reflexivity.
  - reflexivity.
  - repeat constructor; lra.
Defined.









(** X16.  In exact arithmetic, for levels of at least 2 and a product of
    at most 2^32, the codebook holds no codeword twice. *)
Theorem codebook_distinct (levels : list Z) (eps : R) (self : FSQ.t float) :
  levels <> [] -> codec_config levels ->
  FSQ.__init__ levels (Fin eps) = Ok self ->
  NoDup (FSQ.codebook self).
Proof.
  intros Hne Hcfg Hinit.
  destruct (codec_config_facts levels Hne Hcfg) as (Hrange & Hbasis & Hprod).
  destruct Hcfg as [Hall Hbound].
  pose proof (Forall_two_one levels Hall) as Hpos.
  rewrite init_eq in Hinit. injection Hinit as <-.
  unfold FSQ.codebook. cbn [instance FSQ._implicit_codebook].
  apply NoDup_map_NoDup_ForallPairs; [|apply arange_NoDup].
  intros i j Hi Hj Heq.
  apply arange_in in Hi, Hj. rewrite Hprod in Hi, Hj.
  unfold decode in Heq. rewrite Hbasis in Heq.
  apply codeword_injective in Heq;
    [| assumption | apply digits_valid; [assumption | lia]
     | apply digits_valid; [assumption | lia]].
  now apply (digits_injective levels).
Qed.

Lemma codebook_distinct_witness :
  NoDup (FSQ.codebook (instance [3; 4]%Z (Fin (1 / 1000)))).
Proof.
  apply (codebook_distinct [3; 4]%Z (1 / 1000)).
  - discriminate.
  - split; [repeat constructor; lia | now vm_compute].
  - reflexivity.
Defined.

(** X17.  In exact arithmetic, for levels of at least 2 and a product of
    at most 2^32, [codes_to_indexes] of the [k]-th entry of the codebook
    is [k]. *)
Theorem codebook_lookup (levels : list Z) (eps : R) (self : FSQ.t float)
    (k : Z) :
  levels <> [] -> codec_config levels ->
  FSQ.__init__ levels (Fin eps) = Ok self ->
  (0 <= k < FSQ.codebook_size self)%Z ->
  exists c,
    nth_error (FSQ.codebook self) (Z.to_nat k) = Some c /\
    FSQ.codes_to_indexes self c = Ok (Some k).
Proof.
  intros Hne Hcfg Hinit Hk.
  destruct (codec_config_facts levels Hne Hcfg) as (Hrange & Hbasis & Hprod).
  destruct Hcfg as [Hall Hbound].
  pose proof (Forall_two_one levels Hall) as Hpos.
  rewrite init_eq in Hinit. injection Hinit as <-.
  unfold FSQ.codebook, FSQ.codebook_size in *.
  cbn [instance FSQ._implicit_codebook FSQ._levels] in *.
  exists (decode levels k). split.
  - rewrite nth_error_map, arange_nth by assumption. reflexivity.
  - unfold decode.
    set (self := instance levels (Fin eps)).
    change levels with (FSQ._levels self) at 1 3.
    rewrite codes_to_indexes_codeword.
    + cbn [self instance FSQ._basis].
      rewrite Hbasis, value_digits by (auto; lia).
      rewrite Hprod in Hk.
      rewrite Z.div_1_r, Z.mul_1_l, Z.mod_small by lia.
      now rewrite astype_uint32_of_int by lia.
    + split; reflexivity.
    + assumption.
    + assumption.
    + cbn [self instance FSQ._levels]. rewrite Hbasis.
      apply digits_valid; [assumption | lia].
Qed.

Lemma codebook_lookup_witness :
  exists c,
    nth_error (FSQ.codebook (instance [3; 4]%Z (Fin (1 / 1000)))) (Z.to_nat 7)
    = Some c /\
    FSQ.codes_to_indexes (instance [3; 4]%Z (Fin (1 / 1000))) c
    = Ok (Some 7%Z).
Proof.
  apply (codebook_lookup [3; 4]%Z (1 / 1000) _ 7).
  - discriminate.
  - split; [repeat constructor; lia | now vm_compute].
  - reflexivity.
  - now vm_compute.
Defined.

(** X18.  In exact arithmetic, for levels of at least 2,
    [_scale_and_shift] undoes [_scale_and_shift_inverse]: on a digit string
    (digit [i] in [0, levels[i])) the second returns a codeword and the
    first maps that codeword back to the digits. *)
Theorem scale_and_shift_inverse_left (levels : list Z) (eps : R)
    (self : FSQ.t float) (ds : list Z) :
  Forall (fun L => 2 <= L < 9223372036854775808)%Z levels ->
  FSQ.__init__ levels (Fin eps) = Ok self ->
  Radix.valid_digits ds levels ->
  exists c,
    FSQ._scale_and_shift_inverse self ds = Ok c /\
    FSQ._scale_and_shift self c = Ok (map of_int ds).
Proof.
  intros HL Hinit Hv.
  destruct (init_constructed _ _ _ Hinit) as ([Hnp _] & Hlev & _).
  clear Hinit. subst levels.
  pose proof (valid_digits_length _ _ Hv) as Hlen.
  pose proof (length_codeword _ _ Hlen) as Hc.
  eexists. split; [now apply scale_and_shift_inverse_codeword|].
  unfold FSQ._scale_and_shift. rewrite Hnp.
  rewrite broadcast2_same_length by (list_length; now rewrite Hc).
  cbn [bind].
  rewrite broadcast2_same_length
    by (list_length; now rewrite Hc, ?Nat.min_id).
  f_equal. exact_ops. now apply scale_pipeline.
Qed.

Lemma scale_and_shift_inverse_left_witness :
  exists c,
    FSQ._scale_and_shift_inverse (instance [3; 5; 4]%Z (Fin (1 / 1000)))
                                 [2; 0; 3]%Z = Ok c /\
    FSQ._scale_and_shift (instance [3; 5; 4]%Z (Fin (1 / 1000))) c
    = Ok (map of_int [2; 0; 3]%Z).
Proof.
  apply (scale_and_shift_inverse_left [3; 5; 4]%Z (1 / 1000)).
  - repeat constructor; lia.
  - reflexivity.
  - cbn. lia.
Defined.

(** X19.  In exact arithmetic with the IEEE special values,
    [codes_to_indexes] raises nothing on a vector of the right length that
    holds a NaN: the sum is NaN and the result is the undefined conversion
    of NaN to uint32. *)
Theorem codes_to_indexes_nan (levels : list Z) (eps : R)
    (self : FSQ.t float) (zhat : list float) :
  levels <> [] ->
  FSQ.__init__ levels (Fin eps) = Ok self ->
  length zhat = FSQ.num_dimensions self ->
  In NaN zhat ->
  FSQ.codes_to_indexes self zhat = Ok None.
Proof.
  intros Hne Hinit Hlen Hin.
  destruct (init_constructed _ _ _ Hinit) as ([Hnp Hb] & Hlev & _).
  clear Hinit. subst levels.
  assert (Hbl : length (FSQ._basis self) = length (FSQ._levels self))
    by (rewrite Hb; now apply length_basis_of).
  unfold FSQ.codes_to_indexes, FSQ._scale_and_shift.
  rewrite Hlen, Nat.eqb_refl, Hnp.
  unfold FSQ.num_dimensions in Hlen.
  rewrite broadcast2_same_length by (list_length; exact Hlen).
  cbn [bind].
  rewrite broadcast2_same_length
    by (list_length; now rewrite Hlen, ?Nat.min_id).
  cbn [bind].
  rewrite broadcast2_same_length
    by (list_length; now rewrite Hlen, Hbl, ?Nat.min_id).
  cbn [bind]. unfold NumPy.sum_. exact_ops.
  rewrite encode_pipeline_nan; [reflexivity | | | assumption];
    list_length; congruence.
Qed.

Lemma codes_to_indexes_nan_witness :
  FSQ.codes_to_indexes (instance [3; 5; 4]%Z (Fin (1 / 1000)))
                       [Fin 0; NaN; Fin (- 1)]
  = Ok None.
Proof.
  apply (codes_to_indexes_nan [3; 5; 4]%Z (1 / 1000)).
  - discriminate.
  - reflexivity.
  - reflexivity.
  - right. now left.
Defined.

(** X20.  In exact arithmetic, when every level count is odd (and at
    least 3), [quantize] is an odd function: negating every component of
    the input negates every component of the codeword. *)
Theorem quantize_odd_symmetry (levels : list Z) (eps : R)
    (self : FSQ.t float) (z : list R) :
  Forall (fun L => (2 <= L < 9223372036854775808)%Z /\ Z.odd L = true)
         levels ->
  (0 <= eps < 1)%R ->
  FSQ.__init__ levels (Fin eps) = Ok self ->
  length z = FSQ.num_dimensions self ->
  exists c,
    FSQ.quantize self (map Fin z) = Ok c /\
    FSQ.quantize self (map Fin (map Ropp z)) = Ok (map fopp c).
Proof.
  intros HL Heps Hinit Hlen.
  destruct (init_constructed _ _ _ Hinit) as ([Hnp _] & Hlev & Heps').
  unfold FSQ.num_dimensions in Hlen.
  clear Hinit. subst levels.
  rewrite !quantize_vector by (now rewrite ?length_map).
  eexists. split; [reflexivity|].
  rewrite Heps'. clear Heps' Hnp. f_equal.
  revert z Hlen.
  induction HL as [|L ls [HL1 HL1'] HL2 IH]; intros [|x z] Hlen;
    simpl in Hlen; try discriminate; [reflexivity|].
  cbn [map combine fst snd].
  rewrite quantize_opp by assumption.
  f_equal. apply IH. lia.
Qed.

Lemma quantize_odd_symmetry_witness :
  exists c,
    FSQ.quantize (instance [3; 5]%Z (Fin (1 / 1000)))
                 (map Fin [1 / 4; 3 / 5]%R) = Ok c /\
    FSQ.quantize (instance [3; 5]%Z (Fin (1 / 1000)))
                 (map Fin (map Ropp [1 / 4; 3 / 5]%R)) = Ok (map fopp c).
Proof.
  apply (quantize_odd_symmetry [3; 5]%Z (1 / 1000) _ [1 / 4; 3 / 5]%R).
  - repeat constructor; lia.
  - lra.
  - reflexivity.
  - reflexivity.
Defined.

(** X21.  In exact arithmetic, for levels of at least 2 and
    [0 <= eps <= 1/3], the zero vector is quantized to the zero codeword,
    for even level counts too, where the bounded value of 0 is not exactly
    0. *)
Theorem quantize_zero_vector (levels : list Z) (eps : R)
    (self : FSQ.t float) :
  Forall (fun L => 2 <= L < 9223372036854775808)%Z levels ->
  (0 <= eps <= 1 / 3)%R ->
  FSQ.__init__ levels (Fin eps) = Ok self ->
  FSQ.quantize self (map (fun _ => Fin 0) levels)
  = Ok (map (fun _ => Fin 0) levels).
Proof.
  intros HL Heps Hinit.
  destruct (init_constructed _ _ _ Hinit) as ([Hnp _] & Hlev & Heps').
  clear Hinit. subst levels.
  rewrite quantize_vector by (now rewrite ?length_map).
  rewrite Heps'. clear Heps' Hnp. f_equal.
  induction HL as [|L ls HL1 HL2 IH]; [reflexivity|].
  cbn [map combine fst snd].
  rewrite quantize_zero by assumption.
  f_equal. apply IH.
Qed.

Lemma quantize_zero_vector_witness :
  FSQ.quantize (instance [3; 5; 4]%Z (Fin (1 / 1000)))
               (map (fun _ => Fin 0) [3; 5; 4]%Z)
  = Ok (map (fun _ => Fin 0) [3; 5; 4]%Z).
Proof.
  apply (quantize_zero_vector [3; 5; 4]%Z (1 / 1000)).
  - repeat constructor; lia.
  - lra.
  - reflexivity.
Defined.



(** X23.  In floating point, for the three configurations the notebook
    constructs ([3; 5; 4], [5; 4; 3] and [3; 4]) and every index in
    [0, codebook_size): the float32 codeword of the digits of the index
    (what [quantize] forms for them) is encoded as that index; the index
    is decoded, in float64, to the same values; and encoding the decoded
    codeword in float64 returns the index. *)
Theorem notebook_configurations_float (levels : list Z) (index : Z) :
  In levels [[3; 5; 4]; [5; 4; 3]; [3; 4]]%Z ->
  (0 <= index < Radix.product levels)%Z ->
  let self := instance (D := IEEE.float64) levels eps_float64 in
  let c := Radix.codeword (D := IEEE.float32) levels
             (Radix.digits index (basis_of levels) levels) in
  FSQ.codes_to_indexes (D := IEEE.float32) self c = Ok (Some index) /\
  FSQ.indexes_to_codes (D := IEEE.float64) self index
  = Ok (map (IEEE.astype IEEE.binary64) c) /\
  FSQ.codes_to_indexes (D := IEEE.float64) self
    (map (IEEE.astype IEEE.binary64) c) = Ok (Some index).
Proof.
  intros Hin Hidx. cbv zeta.
  assert (Hlev : Forall (fun L => In L [3; 4; 5]%Z) levels).
  { destruct Hin as [<- | [<- | [<- | []]]];
      repeat (apply Forall_cons; [simpl; tauto|]); apply Forall_nil. }
  assert (Hbasis : basis_of levels = Radix.places 1 levels).
  { destruct Hin as [<- | [<- | [<- | []]]]; now vm_compute. }
  assert (Hall :
    forallb (fun levels =>
               let self := instance (D := IEEE.float64) levels eps_float64 in
               forallb (fun index =>
                          digits_encode (D := IEEE.float32) self levels index
                          && index_roundtrips (D := IEEE.float64) self index)
                       (NumPy.arange (Radix.product levels)))
            [[3; 5; 4]; [5; 4; 3]; [3; 4]]%Z = true) by now vm_compute.
  rewrite forallb_forall in Hall. specialize (Hall levels Hin).
  cbv zeta in Hall.
  rewrite forallb_forall in Hall.
  specialize (Hall index (in_arange _ index Hidx)).
  apply andb_prop in Hall. destruct Hall as [Henc Hrt].
  assert (Hv : Radix.valid_digits
                 (Radix.digits index (basis_of levels) levels) levels).
  { rewrite Hbasis. apply digits_valid; [|lia].
    eapply Forall_impl; [|exact Hlev].
    intros L HL. cbv beta in HL. simpl in HL. lia. }
  assert (Hdec : FSQ.indexes_to_codes (D := IEEE.float64)
                   (instance (D := IEEE.float64) levels eps_float64) index
                 = Ok (map (IEEE.astype IEEE.binary64)
                         (Radix.codeword (D := IEEE.float32) levels
                            (Radix.digits index (basis_of levels) levels)))).
  { rewrite indexes_to_codes_eq by (split; reflexivity).
    cbn [instance FSQ._levels FSQ._basis].
    now rewrite codeword_widen. }
  split; [|split].
  - unfold digits_encode in Henc.
    destruct (FSQ.codes_to_indexes _ _) as [[i|]|]; try discriminate.
    apply Z.eqb_eq in Henc. now subst i.
  - exact Hdec.
  - unfold index_roundtrips in Hrt. rewrite Hdec in Hrt.
    destruct (FSQ.codes_to_indexes _ _) as [[i|]|]; try discriminate.
    apply Z.eqb_eq in Hrt. now subst i.
Qed.

Lemma notebook_configurations_float_witness :
  let self := instance (D := IEEE.float64) [5; 4; 3]%Z eps_float64 in
  let c := Radix.codeword (D := IEEE.float32) [5; 4; 3]%Z
             (Radix.digits 59 (basis_of [5; 4; 3]%Z) [5; 4; 3]%Z) in
  FSQ.codes_to_indexes (D := IEEE.float32) self c = Ok (Some 59%Z) /\
  FSQ.indexes_to_codes (D := IEEE.float64) self 59
  = Ok (map (IEEE.astype IEEE.binary64) c) /\
  FSQ.codes_to_indexes (D := IEEE.float64) self
    (map (IEEE.astype IEEE.binary64) c) = Ok (Some 59%Z).
Proof.
  apply (notebook_configurations_float [5; 4; 3]%Z 59).
  - right. now left.
  - now vm_compute.
Defined.

(** X24.  In exact arithmetic, for levels of at least 2 and
    [0 <= eps < 1], every component of [quantize] is the level
    [(k - L // 2) / (L // 2)] of a digit [k] of its dimension, and the
    integer [k - L // 2] is nearest to the same component of [bound]: no
    digit of the dimension is nearer to the bounded value. *)
Theorem quantize_nearest_level (levels : list Z) (eps : R)
    (self : FSQ.t float) (z : list R) :
  Forall (fun L => 2 <= L < 9223372036854775808)%Z levels ->
  (0 <= eps < 1)%R ->
  FSQ.__init__ levels (Fin eps) = Ok self ->
  length z = FSQ.num_dimensions self ->
  exists b c,
    FSQ.bound self (map Fin z) = Ok (map Fin b) /\
    FSQ.quantize self (map Fin z) = Ok (map Fin c) /\
    Forall2 (fun L p =>
               exists k, (0 <= k < L)%Z /\
                 snd p = (IZR (k - L / 2) / IZR (L / 2))%R /\
                 forall d, (0 <= d < L)%Z ->
                   (Rabs (IZR (k - L / 2) - fst p)
                    <= Rabs (IZR (d - L / 2) - fst p))%R)
            levels (combine b c).
Proof.
  intros HL Heps Hinit Hlen.
  destruct (init_constructed _ _ _ Hinit) as ([Hnp _] & Hlev & Heps').
  unfold FSQ.num_dimensions in Hlen.
  clear Hinit. subst levels.
  rewrite bound_vector, quantize_vector by (now rewrite ?length_map).
  rewrite Heps'. clear Heps' Hnp.
  revert z Hlen.
  induction HL as [|L ls HL1 HL2 IH]; intros [|x z] Hlen; simpl in Hlen;
    try discriminate.
  - exists [], []. repeat split; constructor.
  - destruct (IH z ltac:(lia)) as (b & c & Hb & Hc & Hall).
    injection Hb as Hb. injection Hc as Hc.
    destruct (quantize_bound_nearest_level eps Heps L HL1 x)
      as (b0 & k & Hb0 & Hk & Hc0 & Hnear).
    exists (b0 :: b),
           (IZR (k - Dim.half_width L) / IZR (Dim.half_width L) :: c)%R.
    cbn [map combine fst snd]. rewrite Hb, Hc, Hb0, Hc0.
    repeat split. constructor; [|assumption].
    exists k. cbn [fst snd]. split; [exact Hk|]. split; [reflexivity|].
    intros d _. apply Hnear.
Qed.

Lemma quantize_nearest_level_witness :
  exists b c,
    FSQ.bound (instance [3; 5; 4]%Z (Fin (1 / 1000)))
              (map Fin [1 / 4; 3 / 5; - 7]%R) = Ok (map Fin b) /\
    FSQ.quantize (instance [3; 5; 4]%Z (Fin (1 / 1000)))
                 (map Fin [1 / 4; 3 / 5; - 7]%R) = Ok (map Fin c) /\
    Forall2 (fun L p =>
               exists k, (0 <= k < L)%Z /\
                 snd p = (IZR (k - L / 2) / IZR (L / 2))%R /\
                 forall d, (0 <= d < L)%Z ->
                   (Rabs (IZR (k - L / 2) - fst p)
                    <= Rabs (IZR (d - L / 2) - fst p))%R)
            [3; 5; 4]%Z (combine b c).
Proof.
  apply (quantize_nearest_level [3; 5; 4]%Z (1 / 1000) _
           [1 / 4; 3 / 5; - 7]%R).
  - repeat constructor; lia.
  - lra.
  - reflexivity.
  - reflexivity.
Defined.

(** X25.  The lengths [codes_to_indexes] and [quantize] accept.
    [codes_to_indexes] raises an assertion error, whatever the values,
    exactly when the length of its input differs from [num_dimensions].
    [quantize] has no check of its own: it raises the shape error of its
    first operation on the input exactly when the length differs from
    [num_dimensions] and neither of the two is 1, and returns a codeword
    in every other case. *)
Theorem dimension_checks (levels : list Z) (eps : R) (self : FSQ.t float)
    (z : list float) :
  Forall NumPy.is_int64 levels ->
  FSQ.__init__ levels (Fin eps) = Ok self ->
  (FSQ.codes_to_indexes self z = Raise AssertionError <->
   length z <> FSQ.num_dimensions self) /\
  (FSQ.quantize self z = Raise BroadcastError <->
   length z <> FSQ.num_dimensions self /\ length z <> 1%nat /\
   FSQ.num_dimensions self <> 1%nat) /\
  ((exists c, FSQ.quantize self z = Ok c) <->
   length z = FSQ.num_dimensions self \/ length z = 1%nat \/
   FSQ.num_dimensions self = 1%nat).
Proof.
  intros _ Hinit.
  destruct (init_constructed _ _ _ Hinit) as (Hself & _ & _).
  pose proof Hself as [Hnp _].
  assert (Hok : length z = FSQ.num_dimensions self \/ length z = 1%nat \/
                FSQ.num_dimensions self = 1%nat ->
                exists c, FSQ.quantize self z = Ok c).
  { unfold FSQ.num_dimensions. intros [Heq | [Hz | Hn]].
    - rewrite quantize_vector by assumption. now eexists.
    - destruct z as [|x [|x' z]]; try discriminate.
      destruct (quantize_stretch_input self x Hnp) as (c & Hq & _).
      now exists c.
    - destruct (FSQ._levels self) as [|L [|L' ls]] eqn:Hlev; try discriminate.
      destruct (quantize_stretch_levels self L z Hnp) as (c & Hq & _).
      now exists c. }
  assert (Hraise : length z <> FSQ.num_dimensions self -> length z <> 1%nat ->
                   FSQ.num_dimensions self <> 1%nat ->
                   FSQ.quantize self z = Raise BroadcastError).
  { unfold FSQ.num_dimensions. intros Hne Hz Hn.
    apply quantize_mismatch; now rewrite ?Hnp. }
  split; [|split].
  - split.
    + intros Hraised.
      intros Hlen. destruct (codes_to_indexes_ok self z Hself Hlen) as [r Hr].
      congruence.
    + intros Hne. unfold FSQ.codes_to_indexes.
      now rewrite (proj2 (Nat.eqb_neq _ _) Hne).
  - split.
    + intros Hraised.
      destruct (Nat.eq_dec (length z) (FSQ.num_dimensions self)) as [Heq | Hne];
        [destruct (Hok (or_introl Heq)) as [c Hc]; congruence|].
      destruct (Nat.eq_dec (length z) 1) as [Hz | Hz];
        [destruct (Hok (or_intror (or_introl Hz))) as [c Hc]; congruence|].
      destruct (Nat.eq_dec (FSQ.num_dimensions self) 1) as [Hn | Hn];
        [destruct (Hok (or_intror (or_intror Hn))) as [c Hc]; congruence|].
      tauto.
    + intros (Hne & Hz & Hn). now apply Hraise.
  - split; [|exact Hok].
    intros [c Hc].
    destruct (Nat.eq_dec (length z) (FSQ.num_dimensions self)) as [Heq | Hne];
      [tauto|].
    destruct (Nat.eq_dec (length z) 1) as [Hz | Hz]; [tauto|].
    destruct (Nat.eq_dec (FSQ.num_dimensions self) 1) as [Hn | Hn]; [tauto|].
    rewrite (Hraise Hne Hz Hn) in Hc. discriminate.
Qed.

Lemma dimension_checks_witness :
  FSQ.codes_to_indexes (instance [3; 5; 4]%Z (Fin (1 / 1000))) [Fin 0; Fin 0]
  = Raise AssertionError /\
  FSQ.quantize (instance [3; 5; 4]%Z (Fin (1 / 1000))) [Fin 0; Fin 0]
  = Raise BroadcastError.
Proof.
  assert (Hint : Forall NumPy.is_int64 [3; 5; 4]%Z)
    by (repeat constructor; unfold NumPy.is_int64; lia).
  destruct (dimension_checks [3; 5; 4]%Z (1 / 1000) _ [Fin 0; Fin 0]
              Hint eq_refl)
    as (Hassert & Hshape & _).
  split; [apply Hassert | apply Hshape]; repeat split; discriminate.
Defined.

(** X26.  In float64, with a single dimension of fewer than 44 levels,
    [_scale_and_shift] returns exactly the digit
    [_scale_and_shift_inverse] was given.  With 44 levels it does not: the
    level of digit 7 is scaled back to 7.000000000000002. *)
Theorem scale_and_shift_float64_small (L d : Z) :
  (2 <= L < 44)%Z -> (0 <= d < L)%Z ->
  (exists c x,
     FSQ._scale_and_shift_inverse (D := IEEE.float64)
       (instance (D := IEEE.float64) [L] eps_float64) [d] = Ok c /\
     FSQ._scale_and_shift (D := IEEE.float64)
       (instance (D := IEEE.float64) [L] eps_float64) c = Ok [x] /\
     SFeqb x (IEEE.of_int IEEE.binary64 d) = true) /\
  (exists c,
     FSQ._scale_and_shift_inverse (D := IEEE.float64)
       (instance (D := IEEE.float64) [44]%Z eps_float64) [7]%Z = Ok c /\
     FSQ._scale_and_shift (D := IEEE.float64)
       (instance (D := IEEE.float64) [44]%Z eps_float64) c
     = Ok [S754_finite false 7881299347898370 (-50)] /\
     SFcompare (S754_finite false 7881299347898370 (-50))
               (IEEE.of_int IEEE.binary64 7) = Some Gt).
Proof.
  intros HL Hd. split.
  - assert (Hall :
      forallb (fun L =>
                 let self := instance (D := IEEE.float64) [L] eps_float64 in
                 forallb (digit_restored IEEE.float64 self) (NumPy.arange L))
              (map Z.of_nat (seq 2 42)) = true) by now vm_compute.
    rewrite forallb_forall in Hall.
    specialize (Hall L (in_range_from 2 42 L ltac:(lia))).
    cbv zeta in Hall. rewrite forallb_forall in Hall.
    specialize (Hall d (in_arange L d Hd)).
    unfold digit_restored in Hall.
    destruct (FSQ._scale_and_shift_inverse _ [d]) as [c|]; [|discriminate].
    destruct (FSQ._scale_and_shift _ c) as [[|x [|x' xs]]|] eqn:Hs;
      try discriminate.
    exists c, x. repeat split; assumption.
  - eexists. split; [now vm_compute|]. split; now vm_compute.
Qed.

Lemma scale_and_shift_float64_small_witness :
  (exists c x,
     FSQ._scale_and_shift_inverse (D := IEEE.float64)
       (instance (D := IEEE.float64) [43]%Z eps_float64) [7]%Z = Ok c /\
     FSQ._scale_and_shift (D := IEEE.float64)
       (instance (D := IEEE.float64) [43]%Z eps_float64) c = Ok [x] /\
     SFeqb x (IEEE.of_int IEEE.binary64 7) = true) /\
  (exists c,
     FSQ._scale_and_shift_inverse (D := IEEE.float64)
       (instance (D := IEEE.float64) [44]%Z eps_float64) [7]%Z = Ok c /\
     FSQ._scale_and_shift (D := IEEE.float64)
       (instance (D := IEEE.float64) [44]%Z eps_float64) c
     = Ok [S754_finite false 7881299347898370 (-50)] /\
     SFcompare (S754_finite false 7881299347898370 (-50))
               (IEEE.of_int IEEE.binary64 7) = Some Gt).
Proof.
  apply (scale_and_shift_float64_small 43 7); lia.
Defined.
